(** * desktop_app.py: the camera client of the face-recognition service

    A shallow embedding of [src/desktop_app.py].  The module keeps one
    global dictionary ([recognized_faces_cache]) and one [CameraApp] object;
    a Tk timer calls [CameraApp.update_frame] once per tick.  Everything the
    program does to the outside (HTTP requests, dialogs, log lines, the
    canvas, the timer) is recorded as a trace of events; everything the
    outside does to the program (the camera, the HTTP replies, the name
    typed in the prompt) is an input of the tick.

    Python exceptions are modelled by an error monad over the program state,
    so that [try ... except C as e] reads as in the source.  The exceptions
    that are modelled are those of the HTTP client ([requests.post],
    [raise_for_status], [response.json]), of [.get] on a decoded body that is
    not a dictionary, and of [cv2.putText] on a label that is neither a
    string nor [None].
    The camera read, the detector, the JPEG encoder, the hash, the logger
    and the Tk calls are taken to return.

    The detector, the encoder and the hash are parameters of the program:
    their results are only passed on.  [CameraApp.__init__], [load_cascade]
    and [quit] come last, over the events of the window, the camera handle
    and the event loop; the event loop itself ([root.mainloop]) is outside
    the embedding. *)

From Stdlib Require Import ZArith Lia.
From stdpp Require Import base strings list gmap pretty.

Set Warnings "-register-all".

Open Scope Z_scope.

(** ** Python values that cross the program *)

(** [bytes] objects: the JPEG encoding of a face crop. *)
Definition bytes := list Byte.byte.

(** What [response.json()] can return: a decoded JSON document.  A Python
    [dict] is kept as an association list whose first binding of a key is
    the one the dictionary holds. *)
Inductive pyval :=
| PyNone
| PyBool (b : bool)
| PyInt (z : Z)
| PyFloat (literal : string)
| PyStr (s : string)
| PyList (l : list pyval)
| PyDict (d : list (string * pyval)).

(** Exceptions, up to what the handlers of this file can tell apart:
    [except requests.exceptions.RequestException] catches the first kind
    only, [except Exception] catches both.  [msg] is [str(e)]. *)
Inductive exn :=
| RequestException (msg : string)
| OtherException (msg : string).

Definition is_RequestException (e : exn) : bool :=
  match e with RequestException _ => true | OtherException _ => false end.

Definition is_Exception (e : exn) : bool := true.

Definition str_of_exn (e : exn) : string :=
  match e with RequestException msg | OtherException msg => msg end.

(** [d.get(key, default)] on a dictionary. *)
Fixpoint dict_get (d : list (string * pyval)) (key : string) (default : pyval) : pyval :=
  match d with
  | [] => default
  | (k, v) :: d' => if String.eqb k key then v else dict_get d' key default
  end.


(** [v.get(key, default)] on any value: only a [dict] has the method. *)
Definition py_get (v : pyval) (key : string) (default : pyval) : exn + pyval :=
  match v with
  | PyDict d => inr (dict_get d key default)
  | _ => inl (OtherException "AttributeError: object has no attribute 'get'")
  end.

(** How the OpenCV binding reads a Python object where it expects a text:
    a [str] is taken as it is, [None] leaves the text empty (the call goes
    on with the empty text, which puts nothing on the picture), anything
    else does not convert. *)
Definition text_of_pyval (v : pyval) : option string :=
  match v with
  | PyStr s => Some s
  | PyNone => Some EmptyString
  | _ => None
  end.

(** [name == "Unknown"]. *)
Definition py_eq_str (v : pyval) (s : string) : bool :=
  match v with PyStr s' => String.eqb s' s | _ => false end.

(** Truth value of what [simpledialog.askstring] returns: [None] when the
    prompt is cancelled, the typed string otherwise. *)
Definition truthy (user_name : option string) : bool :=
  match user_name with
  | None => false
  | Some s => negb (String.eqb s "")
  end.

(** ** The HTTP client (requests) *)

(** A response object: its status code and what [response.json()] does,
    which is to return the decoded body or to raise. *)
Record Response := { status_code : Z; json : exn + pyval }.

(** What a call of [requests.post] does: raise, or return a response. *)
Inductive post_result :=
| PostRaises (e : exn)
| PostReturns (r : Response).

(** One entry of the [files] argument of [requests.post]. *)
Inductive file_part :=
| FileBytes (content : bytes)
| FileTuple (filename : string) (content : bytes) (content_type : string).

Definition add_user_url : string := "http://127.0.0.1:5000/add_user".
Definition recognize_url : string := "http://127.0.0.1:5000/recognize".

(** [Response.raise_for_status] of requests: an [HTTPError] (a
    [RequestException]) for the client-error and server-error classes,
    nothing for any other status.  The message keeps the status and the
    class; the reason phrase and the URL are left out. *)
Definition raise_for_status (r : Response) : exn + unit :=
  if (400 <=? status_code r) && (status_code r <? 500) then
    inl (RequestException (pretty (status_code r) +:+ " Client Error"))
  else if (500 <=? status_code r) && (status_code r <? 600) then
    inl (RequestException (pretty (status_code r) +:+ " Server Error"))
  else inr tt.

(** A network call fails: the transport raises, or the server answers with
    a client-error or server-error status. *)
Inductive request_fails : post_result -> Prop :=
| transport_fails (msg : string) :
    request_fails (PostRaises (RequestException msg))
| http_error (r : Response) :
    400 <= status_code r < 600 -> request_fails (PostReturns r).

(** ** Frames and what is drawn on them *)

(** A detection of [detectMultiScale]: [(x, y, w, h)]. *)
Definition FaceBox : Type := Z * Z * Z * Z.

Definition point : Type := Z * Z.
Definition colour : Type := Z * Z * Z.

(** The two OpenCV drawing calls of the file.  The font face and scale of
    [putText] are the same constants at its only call site and are left
    out. *)
Inductive draw_op :=
| Rectangle (pt1 pt2 : point) (color : colour) (thickness : Z)
| PutText (text : string) (org : point) (color : colour) (thickness : Z).

Inductive level := INFO | ERROR.

(** ** The program *)

Section CameraApp.

(** The parts of OpenCV and hashlib that the program calls and whose results
    it only passes on.  [Image] is the pixel array a camera read returns. *)
Variable Image : Type.

(** [face_cascade.detectMultiScale(cv2.cvtColor(frame, COLOR_BGR2GRAY), ...)]
    with the fixed parameters of the call site. *)
Variable detectMultiScale : Image -> list FaceBox.

(** A frame during a tick: the pixels read from the camera and what has been
    drawn on them since, oldest first.  The drawing calls mutate the frame in
    place, so a crop taken later sees what was drawn before. *)
Record Frame := { pixels : Image; overlays : list draw_op }.

(** [cv2.imencode('.jpg', frame[y:y + h, x:x + w])[1].tobytes()]. *)
Variable imencode_jpg : Frame -> FaceBox -> bytes.

(** [hashlib.sha256(encoding).hexdigest()]. *)
Variable sha256_hexdigest : bytes -> string.

(** *** State *)

(** The attributes of [CameraApp] that change after [__init__], and the
    module-level dictionary [recognized_faces_cache]. *)
Record state := {
  adding_user_mode : bool;
  num_photos : nat;
  encodings : list bytes;
  recognized_faces_cache : gmap string pyval
}.

(** The state [__init__] leaves (lines 43-45) with the empty global cache
    (line 19). *)
Definition init : state :=
  {| adding_user_mode := false; num_photos := 5; encodings := [];
     recognized_faces_cache := ∅ |}.

(** *** Events *)

Inductive event :=
| Log (lvl : level) (msg : string)                    (* logging.info / logging.error *)
| LogValue (lvl : level) (v : pyval)                  (* logging.info(response.json()) *)
| Post (url : string) (files : list (string * file_part))
       (data : list (string * string))                (* requests.post *)
| ShowInfo (title msg : string)                       (* messagebox.showinfo *)
| ShowWarning (title msg : string)                    (* messagebox.showwarning *)
| ShowError (title msg : string)                      (* messagebox.showerror *)
| AskString (title prompt : string)                   (* simpledialog.askstring *)
| CreateImage (frame : Frame)                         (* canvas.create_image *)
| After (ms : Z).                                     (* root.after(ms, self.update_frame) *)

(** *** What the outside does during one tick *)

Record tick_env := {
  (** [video_capture.read()]: [None] for [ret = False]. *)
  read : option Image;
  (** What [requests.post(recognize_url, ...)] does when it is called for
      the [i]-th face of this tick (counting from 0). *)
  recognize_reply : nat -> post_result;
  (** What the name prompt returns, if it is shown in this tick. *)
  askstring_reply : option string;
  (** What [requests.post(add_user_url, ...)] does, if called in this tick. *)
  add_user_reply : post_result
}.

(** *** The monad: state, trace and exceptions *)

Inductive outcome (A : Type) :=
| Returns (a : A)
| Raises (e : exn).
Arguments Returns {A} a.
Arguments Raises {A} e.

Definition M (A : Type) : Type := state -> state * list event * outcome A.

Definition ret {A} (a : A) : M A := fun s => (s, [], Returns a).

Definition bind {A B} (m : M A) (k : A -> M B) : M B :=
  fun s =>
    match m s with
    | (s1, t1, Returns a) => let '(s2, t2, r) := k a s1 in (s2, t1 ++ t2, r)
    | (s1, t1, Raises e) => (s1, t1, Raises e)
    end.

Definition raise {A} (e : exn) : M A := fun s => (s, [], Raises e).

Definition lift {A} (r : exn + A) : M A :=
  match r with inl e => raise e | inr a => ret a end.

(** [try: body  except C as e: handler e], where [catches] says which
    exceptions are instances of [C]. *)
Definition try_except {A} (body : M A) (catches : exn -> bool) (handler : exn -> M A) : M A :=
  fun s =>
    match body s with
    | (s1, t1, Raises e) =>
        if catches e then let '(s2, t2, r) := handler e s1 in (s2, t1 ++ t2, r)
        else (s1, t1, Raises e)
    | r => r
    end.

Definition emit (e : event) : M unit := fun s => (s, [e], Returns tt).
Definition get : M state := fun s => (s, [], Returns s).

(** Attribute and dictionary updates, as functions on the state. *)
Definition with_mode (b : bool) (s : state) : state :=
  {| adding_user_mode := b; num_photos := num_photos s; encodings := encodings s;
     recognized_faces_cache := recognized_faces_cache s |}.

Definition with_encodings (l : list bytes) (s : state) : state :=
  {| adding_user_mode := adding_user_mode s; num_photos := num_photos s; encodings := l;
     recognized_faces_cache := recognized_faces_cache s |}.

Definition cached (key : string) (v : pyval) (s : state) : state :=
  {| adding_user_mode := adding_user_mode s; num_photos := num_photos s;
     encodings := encodings s;
     recognized_faces_cache := <[key := v]> (recognized_faces_cache s) |}.

(** [self.adding_user_mode = b]. *)
Definition set_adding_user_mode (b : bool) : M unit :=
  fun s => (with_mode b s, [], Returns tt).

(** [self.encodings = l]. *)
Definition set_encodings (l : list bytes) : M unit :=
  fun s => (with_encodings l s, [], Returns tt).

(** [recognized_faces_cache[key] = v]. *)
Definition cache_setitem (key : string) (v : pyval) : M unit :=
  fun s => (cached key v s, [], Returns tt).

#[local] Notation "x <- c ;; k" := (bind c (fun x => k))
  (at level 100, c at next level, right associativity, only parsing).
#[local] Notation "c ;;; k" := (bind c (fun _ => k))
  (at level 100, right associativity, only parsing).

(** [requests.post(url, files=files, data=data)] with the outside's answer. *)
Definition requests_post (url : string) (files : list (string * file_part))
    (data : list (string * string)) (reply : post_result) : M Response :=
  emit (Post url files data) ;;;
  match reply with
  | PostRaises e => raise e
  | PostReturns r => ret r
  end.

(** *** Drawing *)

Definition cv2_rectangle (img : Frame) (pt1 pt2 : point) (color : colour) (thickness : Z) : Frame :=
  {| pixels := pixels img; overlays := overlays img ++ [Rectangle pt1 pt2 color thickness] |}.

(** [cv2.putText]: the binding converts its [text] argument with
    [text_of_pyval] and refuses what does not convert. *)
Definition cv2_putText (img : Frame) (text : pyval) (org : point) (color : colour)
    (thickness : Z) : M Frame :=
  match text_of_pyval text with
  | Some s =>
      ret {| pixels := pixels img; overlays := overlays img ++ [PutText s org color thickness] |}
  | None => raise (OtherException "cv2.error: Can't convert object to 'str' for 'text'")
  end.

(** [CameraApp.draw_rectangle] (lines 151-154). *)
Definition draw_rectangle (img : Frame) (bbox : FaceBox) (name : pyval) : M Frame :=
  let '(x, y, w, h) := bbox in
  let img := cv2_rectangle img (x, y) (x + w, y + h) (255, 0, 0) 2 in
  cv2_putText img name (x, y - 10) (0, 255, 0) 2.

(** [CameraApp.hash_face_encoding] (lines 156-157). *)
Definition hash_face_encoding (encoding : bytes) : string := sha256_hexdigest encoding.

(** *** Enrollment *)

(** [CameraApp.prepare_to_add_user] (lines 129-132), the command of the
    "Add User" button. *)
Definition prepare_to_add_user : M unit :=
  set_adding_user_mode true ;;;
  set_encodings [] ;;;
  emit (ShowInfo "Info" "Press 'c' to capture images of the user.").

(** The [files] list of line 140:
    [[('file', (f'image_{i}.jpg', enc, 'image/jpeg')) for i, enc in enumerate(self.encodings)]]. *)
Definition add_user_files (encs : list bytes) : list (string * file_part) :=
  imap (fun i enc => ("file", FileTuple ("image_" +:+ pretty i +:+ ".jpg") enc "image/jpeg")) encs.

(** [CameraApp.complete_add_user] (lines 134-149). *)
Definition complete_add_user (env : tick_env) : M unit :=
  set_adding_user_mode false ;;;
  emit (AskString "Input" "Enter user name:") ;;;
  let user_name := askstring_reply env in
  if truthy user_name then
    let name := default "" user_name in
    try_except
      (s <- get ;;
       let files := add_user_files (encodings s) in
       response <- requests_post add_user_url files [("name", name)] (add_user_reply env) ;;
       lift (raise_for_status response) ;;;
       body <- lift (json response) ;;
       emit (LogValue INFO body) ;;;
       emit (ShowInfo "Success" ("User " +:+ name +:+ " added successfully!")))
      is_RequestException
      (fun e =>
         emit (Log ERROR ("Error adding user: " +:+ str_of_exn e)) ;;;
         emit (ShowError "Error" ("Error adding user: " +:+ str_of_exn e)))
  else
    emit (ShowWarning "Warning" "No user name entered. User not added.").

(** The loop of lines 85-95 over the faces that are left.  [break] after
    [complete_add_user] leaves the remaining faces alone. *)
Fixpoint enroll_loop (env : tick_env) (frame : Frame) (faces : list FaceBox) : M Frame :=
  match faces with
  | [] => ret frame
  | (x, y, w, h) :: rest =>
      let frame := cv2_rectangle frame (x, y) (x + w, y + h) (255, 0, 0) 2 in
      let img_encoded := imencode_jpg frame (x, y, w, h) in
      s <- get ;;
      set_encodings (encodings s ++ [img_encoded]) ;;;
      s <- get ;;
      emit (Log INFO ("Captured " +:+ pretty (length (encodings s)) +:+ " images")) ;;;
      if (num_photos s <=? length (encodings s))%nat then
        complete_add_user env ;;;
        ret frame
      else enroll_loop env frame rest
  end.

(** *** Recognition *)

(** The body of the loop of lines 98-118 for the [i]-th face of the tick. *)
Definition recognize_face (env : tick_env) (i : nat) (frame : Frame) (box : FaceBox) : M Frame :=
  let img_encoded := imencode_jpg frame box in
  let face_hash := hash_face_encoding img_encoded in
  s <- get ;;
  name <-
    match recognized_faces_cache s !! face_hash with
    | Some name => ret name
    | None =>
        try_except
          (response <- requests_post recognize_url [("file", FileBytes img_encoded)] []
                         (recognize_reply env i) ;;
           lift (raise_for_status response) ;;;
           body <- lift (json response) ;;
           name <- lift (py_get body "name" (PyStr "Unknown")) ;;
           cache_setitem face_hash name ;;;
           (if py_eq_str name "Unknown"
            then emit (Log INFO "Face not recognized. Consider adding this user.")
            else ret tt) ;;;
           ret name)
          is_RequestException
          (fun e =>
             emit (Log ERROR ("Error recognizing face: " +:+ str_of_exn e)) ;;;
             ret (PyStr "Unknown"))
    end ;;
  draw_rectangle frame box name.

Fixpoint recognize_loop (env : tick_env) (i : nat) (frame : Frame) (faces : list FaceBox) : M Frame :=
  match faces with
  | [] => ret frame
  | box :: rest =>
      frame <- recognize_face env i frame box ;;
      recognize_loop env (S i) frame rest
  end.

(** *** The tick *)

(** The [try] block of [update_frame] (lines 70-123). *)
Definition update_frame_try (env : tick_env) : M unit :=
  match read env with
  | None => emit (After 10)
  | Some img =>
      let frame := {| pixels := img; overlays := [] |} in
      let faces := detectMultiScale img in
      s <- get ;;
      frame <- (if adding_user_mode s
                then enroll_loop env frame faces
                else recognize_loop env 0 frame faces) ;;
      emit (CreateImage frame) ;;;
      emit (After 10)
  end.

(** [CameraApp.update_frame] (lines 68-127): the [try] block under the
    handler of lines 125-127. *)
Definition update_frame (env : tick_env) : M unit :=
  try_except
    (update_frame_try env)
    is_Exception
    (fun e =>
       emit (Log ERROR ("Error updating frame: " +:+ str_of_exn e)) ;;;
       emit (ShowError "Error" ("Error updating frame: " +:+ str_of_exn e))).

(** *** Runs of the application *)

(** What can happen to the running application: the timer fires, or the
    user presses "Add User". *)
Inductive action :=
| Tick (env : tick_env)
| AddUser.

Definition step (a : action) : M unit :=
  match a with
  | Tick env => update_frame env
  | AddUser => prepare_to_add_user
  end.

Fixpoint run (acts : list action) : M unit :=
  match acts with
  | [] => ret tt
  | a :: rest => step a ;;; run rest
  end.

(** The state and the trace of a computation. *)
Definition state_of {A} (r : state * list event * outcome A) : state := r.1.1.
Definition trace_of {A} (r : state * list event * outcome A) : list event := r.1.2.
Definition outcome_of {A} (r : state * list event * outcome A) : outcome A := r.2.

(** *** Observations on traces *)

Definition is_post (e : event) : bool :=
  match e with Post _ _ _ => true | _ => false end.

Definition is_after (e : event) : bool :=
  match e with After _ => true | _ => false end.

Definition is_warning (e : event) : bool :=
  match e with ShowWarning _ _ => true | _ => false end.

Definition is_error_dialog (e : event) : bool :=
  match e with ShowError _ _ => true | _ => false end.

(** The HTTP requests of a trace, in order. *)
Definition posts (t : list event) : list event := List.filter is_post t.

(** *** Vocabulary of the properties *)

(** The frame once [draw_rectangle] has boxed and labelled a face on it. *)
Definition labelled (frame : Frame) (box : FaceBox) (name : string) : Frame :=
  let '(x, y, w, h) := box in
  let img := cv2_rectangle frame (x, y) (x + w, y + h) (255, 0, 0) 2 in
  {| pixels := pixels img;
     overlays := overlays img ++ [PutText name (x, y - 10) (0, 255, 0) 2] |}.

(** The request that recognition sends for an encoded crop. *)
Definition recognize_request (img_encoded : bytes) : event :=
  Post recognize_url [("file", FileBytes img_encoded)] [].

(** The request that enrollment sends for a buffer of crops and a name. *)
Definition add_user_request (encs : list bytes) (name : string) : event :=
  Post add_user_url (add_user_files encs) [("name", name)].

(** [extends s s']: [s'] has the attributes of [s] and a cache that holds
    every entry of the cache of [s]. *)
Definition extends (s s' : state) : Prop :=
  adding_user_mode s' = adding_user_mode s /\
  num_photos s' = num_photos s /\
  encodings s' = encodings s /\
  recognized_faces_cache s ⊆ recognized_faces_cache s'.

(** The invariant of the sample buffer: it holds at most [num_photos = 5]
    crops, and fewer while samples are being collected. *)
Definition buffer_inv (s : state) : Prop :=
  num_photos s = 5%nat /\
  (length (encodings s) <= num_photos s)%nat /\
  (adding_user_mode s = true -> (length (encodings s) < num_photos s)%nat).

(** More observations on traces and values. *)

Definition is_log (e : event) : bool :=
  match e with Log _ _ => true | _ => false end.

Definition is_prompt (e : event) : bool :=
  match e with AskString _ _ => true | _ => false end.

Definition is_post_to (url : string) (e : event) : bool :=
  match e with Post u _ _ => String.eqb u url | _ => false end.

Definition is_success_dialog (e : event) : bool :=
  match e with ShowInfo title _ => String.eqb title "Success" | _ => false end.

Definition is_rectangle (d : draw_op) : bool :=
  match d with Rectangle _ _ _ _ => true | PutText _ _ _ _ => false end.

(** The file names of a [files] list. *)
Definition filenames (files : list (string * file_part)) : list string :=
  omap (fun f => match f.2 with FileTuple n _ _ => Some n | FileBytes _ => None end) files.

(** *** Startup and shutdown *)

(** What the application does to the outside besides the events of a tick:
    the window and its widgets, the camera handle, the cascade file, the
    event loop. *)
Inductive sys_event :=
| App (e : event)
| SetTitle (title : string)                  (* root.title *)
| VideoCapture (index : Z)                   (* cv2.VideoCapture *)
| CreateCanvas (width height : Z)            (* tk.Canvas(...).pack() *)
| CreateFrame                                (* ttk.Frame(root).pack() *)
| CreateButton (text : string)               (* ttk.Button(...).pack(side=tk.LEFT) *)
| CascadeClassifier (path : string)          (* cv2.CascadeClassifier *)
| Release                                    (* video_capture.release() *)
| RootQuit.                                  (* root.quit() *)

(** What the outside does during [__init__]. *)
Record startup_env := {
  (** [video_capture.isOpened()] after [cv2.VideoCapture(0)]. *)
  camera_opens : bool;
  (** [os.path.join(os.path.dirname(__file__), 'haarcascade_frontalface_default.xml')]. *)
  face_cascade_path : string;
  (** [face_cascade.empty()] after the file was read. *)
  cascade_empty : bool;
  (** The outside of the tick that [__init__] runs at line 48. *)
  first_tick : tick_env
}.

(** The camera handle and the attributes of lines 43-45, which exist once
    [__init__] has reached them. *)
Record process := {
  capture_opened : bool;
  attributes : option state
}.

(** [CameraApp.quit] (lines 159-162), the command of the "Quit" button. *)
Definition quit (p : process) : process * list sys_event :=
  if capture_opened p
  then ({| capture_opened := false; attributes := attributes p |}, [Release; RootQuit])
  else (p, [RootQuit]).

(** [CameraApp.load_cascade] (lines 55-66): the exception is logged and
    raised again. *)
Definition load_cascade (env : startup_env) : list sys_event * (exn + unit) :=
  let face_cascade_path := face_cascade_path env in
  let t := [App (Log INFO ("Loading Haar Cascade from: " +:+ face_cascade_path));
            CascadeClassifier face_cascade_path] in
  if cascade_empty env then
    let e := OtherException
               ("Failed to load Haar Cascade classifier from " +:+ face_cascade_path) in
    (t ++ [App (Log ERROR ("Error loading Haar Cascade: " +:+ str_of_exn e))], inl e)
  else (t, inr tt).

(** The handler of [__init__] (lines 50-53). *)
Definition init_except (e : exn) (p : process) : process * list sys_event :=
  let '(p', t) := quit p in
  (p', [App (Log ERROR ("Initialization error: " +:+ str_of_exn e));
        App (ShowError "Error" ("Initialization error: " +:+ str_of_exn e))] ++ t).

(** [CameraApp.__init__] (lines 22-53). *)
Definition CameraApp_init (env : startup_env) : process * list sys_event :=
  let t0 := [SetTitle "Face Recognition App"; VideoCapture 0] in
  if negb (camera_opens env) then
    let '(p, t) := init_except (OtherException "Cannot open webcam")
                     {| capture_opened := false; attributes := None |} in
    (p, t0 ++ t)
  else
    let t1 := [CreateCanvas 640 480; CreateFrame;
               CreateButton "Add User"; CreateButton "Quit"] in
    match load_cascade env with
    | (t2, inl e) =>
        let '(p, t) := init_except e {| capture_opened := true; attributes := Some init |} in
        (p, t0 ++ t1 ++ t2 ++ t)
    | (t2, inr _) =>
        match update_frame (first_tick env) init with
        | (s, t3, Returns _) =>
            ({| capture_opened := true; attributes := Some s |},
             t0 ++ t1 ++ t2 ++ map App t3)
        | (s, t3, Raises e) =>
            let '(p, t) := init_except e {| capture_opened := true; attributes := Some s |} in
            (p, t0 ++ t1 ++ t2 ++ map App t3 ++ t)
        end
    end.

(** Presses of "Quit" after [__init__]. *)
Fixpoint quits (n : nat) (p : process) : process * list sys_event :=
  match n with
  | O => (p, [])
  | S n' => let '(p1, t1) := quit p in let '(p2, t2) := quits n' p1 in (p2, t1 ++ t2)
  end.

Definition is_release (e : sys_event) : bool :=
  match e with Release => true | _ => false end.

Definition is_root_quit (e : sys_event) : bool :=
  match e with RootQuit => true | _ => false end.

(** The events of a tick among the events of the application. *)
Definition app_events (t : list sys_event) : list event :=
  omap (fun e => match e with App e' => Some e' | _ => None end) t.

(** The loop over the detected faces that a tick runs on a picture [img]
    (lines 84-118), in the mode the state is in. *)
Definition tick_loop (env : tick_env) (img : Image) : M Frame :=
  fun s =>
    (if adding_user_mode s
     then enroll_loop env {| pixels := img; overlays := [] |} (detectMultiScale img)
     else recognize_loop env 0 {| pixels := img; overlays := [] |} (detectMultiScale img)) s.

(** The drawings of [draw_rectangle] for one face. *)
Definition face_overlays (box : FaceBox) (name : string) : list draw_op :=
  let '(x, y, w, h) := box in
  [Rectangle (x, y) (x + w, y + h) (255, 0, 0) 2; PutText name (x, y - 10) (0, 255, 0) 2].

(** The crops that the sample loop takes of the faces of a frame, as long
    as it goes on: each one after the box of its face was drawn, on top of
    the boxes of the faces before it (lines 86-88). *)
Fixpoint captured_crops (frame : Frame) (faces : list FaceBox) : list bytes :=
  match faces with
  | [] => []
  | (x, y, w, h) :: rest =>
      let frame := cv2_rectangle frame (x, y) (x + w, y + h) (255, 0, 0) 2 in
      imencode_jpg frame (x, y, w, h) :: captured_crops frame rest
  end.

End CameraApp.

Arguments Returns {A} a.
Arguments Raises {A} e.
Arguments pixels {Image} f.
Arguments overlays {Image} f.
Arguments read {Image} t.
Arguments recognize_reply {Image} t i.
Arguments askstring_reply {Image} t.
Arguments add_user_reply {Image} t.
Arguments Log {Image} lvl msg.
Arguments LogValue {Image} lvl v.
Arguments Post {Image} url files data.
Arguments ShowInfo {Image} title msg.
Arguments ShowWarning {Image} title msg.
Arguments ShowError {Image} title msg.
Arguments AskString {Image} title prompt.
Arguments CreateImage {Image} frame.
Arguments After {Image} ms.
Arguments Tick {Image} env.
Arguments AddUser {Image}.
Arguments state_of {Image A} r.
Arguments trace_of {Image A} r.
Arguments outcome_of {Image A} r.
Arguments is_post {Image} e.
Arguments is_after {Image} e.
Arguments is_warning {Image} e.
Arguments is_error_dialog {Image} e.
Arguments posts {Image} t.
Arguments prepare_to_add_user {Image} s.
Arguments complete_add_user {Image} env s.
Arguments enroll_loop {Image} imencode_jpg env frame faces s.
Arguments recognize_face {Image} imencode_jpg sha256_hexdigest env i frame box s.
Arguments recognize_loop {Image} imencode_jpg sha256_hexdigest env i frame faces s.
Arguments update_frame {Image} detectMultiScale imencode_jpg sha256_hexdigest env s.
Arguments step {Image} detectMultiScale imencode_jpg sha256_hexdigest a s.
Arguments run {Image} detectMultiScale imencode_jpg sha256_hexdigest acts s.
Arguments labelled {Image} frame box name.
Arguments recognize_request {Image} img_encoded.
Arguments add_user_request {Image} encs name.
Arguments draw_rectangle {Image} img bbox name s.
Arguments update_frame_try {Image} detectMultiScale imencode_jpg sha256_hexdigest env s.
Arguments ret {Image A} a s.
Arguments bind {Image A B} m k s.
Arguments raise {Image A} e s.
Arguments lift {Image A} r s.
Arguments try_except {Image A} body catches handler s.
Arguments emit {Image} e s.
Arguments get {Image} s.
Arguments set_adding_user_mode {Image} b s.
Arguments set_encodings {Image} l s.
Arguments cache_setitem {Image} key v s.
Arguments requests_post {Image} url files data reply s.
Arguments cv2_rectangle {Image} img pt1 pt2 color thickness.
Arguments cv2_putText {Image} img text org color thickness s.
Arguments is_log {Image} e.
Arguments is_prompt {Image} e.
Arguments is_post_to {Image} url e.
Arguments is_success_dialog {Image} e.
Arguments App {Image} e.
Arguments SetTitle {Image} title.
Arguments VideoCapture {Image} index.
Arguments CreateCanvas {Image} width height.
Arguments CreateFrame {Image}.
Arguments CreateButton {Image} text.
Arguments CascadeClassifier {Image} path.
Arguments Release {Image}.
Arguments RootQuit {Image}.
Arguments camera_opens {Image} s.
Arguments face_cascade_path {Image} s.
Arguments cascade_empty {Image} s.
Arguments first_tick {Image} s.
Arguments quit {Image} p.
Arguments load_cascade {Image} env.
Arguments init_except {Image} e p.
Arguments CameraApp_init {Image} detectMultiScale imencode_jpg sha256_hexdigest env.
Arguments quits {Image} n p.
Arguments is_release {Image} e.
Arguments is_root_quit {Image} e.
Arguments app_events {Image} t.
Arguments tick_loop {Image} detectMultiScale imencode_jpg sha256_hexdigest env img s.
Arguments captured_crops {Image} imencode_jpg frame faces.

(** ** A test bench *)

(** Stand-ins for the camera, the detector, the JPEG encoder and the hash, to
    run the program on concrete ticks.  A picture is given by the boxes the
    detector finds in it; the encoding of a crop spells out its box and how
    many drawing calls the frame has seen; the digest of a byte string is
    that byte string, spelled as text. *)
Module Bench.

Definition picture : Type := list FaceBox.

Definition detect (img : picture) : list FaceBox := img.

Definition encode (frame : Frame picture) (box : FaceBox) : bytes :=
  let '(x, y, w, h) := box in
  String.list_byte_of_string
    (pretty x +:+ "," +:+ pretty y +:+ "," +:+ pretty w +:+ "," +:+ pretty h +:+ "/" +:+
     pretty (length (overlays frame))).

Definition digest (b : bytes) : string := String.string_of_list_byte b.

Definition face : FaceBox := (120, 80, 200, 200).
Definition one_face : picture := [face].
Definition empty_room : picture := [].
Definition five_faces : picture :=
  [(0, 0, 100, 100); (110, 0, 100, 100); (220, 0, 100, 100);
   (330, 0, 100, 100); (440, 0, 100, 100)].

Definition fresh (img : picture) : Frame picture := {| pixels := img; overlays := [] |}.

Definition answer (status : Z) (body : pyval) : post_result :=
  PostReturns {| status_code := status; json := inr body |}.

Definition unreachable : post_result :=
  PostRaises (RequestException "ConnectionError: connection refused").

(** A tick that sees [img], with the recognition server answering every
    request by [reply]; the name prompt and the enrollment server are as
    given. *)
Definition tick (img : picture) (reply : post_result) (prompt : option string)
    (enroll : post_result) : tick_env picture :=
  {| read := Some img; recognize_reply := fun _ => reply;
     askstring_reply := prompt; add_user_reply := enroll |}.

Definition sees (img : picture) (reply : post_result) : tick_env picture :=
  tick img reply None unreachable.

Definition alice : post_result := answer 200 (PyDict [("name", PyStr "Alice")]).

Definition update := update_frame detect encode digest.
Definition runs := run detect encode digest.
Definition recognize := recognize_face encode digest.

Definition two_faces : picture := [(0, 0, 100, 100); (110, 0, 100, 100)].

(** The outside of [__init__]: whether the camera opens, whether the
    cascade file loads empty, and the outside of the first tick. *)
Definition boot (opens empty : bool) (first : tick_env picture) : startup_env picture :=
  {| camera_opens := opens;
     face_cascade_path := "/opt/app/haarcascade_frontalface_default.xml";
     cascade_empty := empty;
     first_tick := first |}.

Definition start := CameraApp_init detect encode digest.
Definition loop := tick_loop detect encode digest.

End Bench.



(** ** Properties of the program *)

Section Properties.

Context {Image : Type}
        (detectMultiScale : Image -> list FaceBox)
        (imencode_jpg : Frame Image -> FaceBox -> bytes)
        (sha256_hexdigest : bytes -> string).

#[local] Abbreviation Frame := (Frame Image).
#[local] Abbreviation tick_env := (tick_env Image).
#[local] Abbreviation event := (event Image).
#[local] Abbreviation action := (action Image).
#[local] Abbreviation prepare_to_add_user := (@prepare_to_add_user Image).
#[local] Abbreviation hash_face_encoding := (hash_face_encoding sha256_hexdigest).
#[local] Abbreviation enroll_loop := (enroll_loop imencode_jpg).
#[local] Abbreviation recognize_face := (recognize_face imencode_jpg sha256_hexdigest).
#[local] Abbreviation recognize_loop := (recognize_loop imencode_jpg sha256_hexdigest).
#[local] Abbreviation update_frame_try :=
  (update_frame_try detectMultiScale imencode_jpg sha256_hexdigest).
#[local] Abbreviation update_frame :=
  (update_frame detectMultiScale imencode_jpg sha256_hexdigest).
#[local] Abbreviation captured_crops := (captured_crops imencode_jpg).
#[local] Abbreviation tick_loop := (tick_loop detectMultiScale imencode_jpg sha256_hexdigest).
#[local] Abbreviation step := (step detectMultiScale imencode_jpg sha256_hexdigest).
#[local] Abbreviation run := (run detectMultiScale imencode_jpg sha256_hexdigest).

(** ** The HTTP status check *)


Lemma raise_for_status_error (r : Response) :
  400 <= status_code r < 600 ->
  exists msg, raise_for_status r = inl (RequestException msg).
Proof.
  intros H. unfold raise_for_status.
  destruct (400 <=? status_code r) eqn:H4; [|lia].
  destruct (status_code r <? 500) eqn:H5; simpl; [eauto|].
  destruct (500 <=? status_code r) eqn:H6; [|lia].
  destruct (status_code r <? 600) eqn:H7; simpl; [eauto|lia].
Qed.

Lemma raise_for_status_cases (r : Response) :
  raise_for_status r = inr tt \/
  exists msg, raise_for_status r = inl (RequestException msg).
Proof.
  unfold raise_for_status.
  destruct (_ && _); [right; eauto|].
  destruct (_ && _); [right; eauto|left; reflexivity].
Qed.


(** ** One face in recognition mode *)

Lemma draw_rectangle_str (frame : Frame) (box : FaceBox) (name : string) (s : state) :
  draw_rectangle frame box (PyStr name) s = (s, [], Returns (labelled frame box name)).
Proof. destruct box as [[[x y] w] h]. reflexivity. Qed.

Lemma draw_rectangle_pure (frame : Frame) (box : FaceBox) (name : pyval) (s : state) :
  state_of (draw_rectangle frame box name s) = s /\
  trace_of (draw_rectangle frame box name s) = [].
Proof. destruct box as [[[x y] w] h]. destruct name; split; reflexivity. Qed.

(** Lines 103-104: a hit draws the cached label and does nothing else. *)
Lemma recognize_face_hit (env : tick_env) (i : nat) (frame : Frame) (box : FaceBox)
    (s : state) (name : pyval) :
  recognized_faces_cache s !! hash_face_encoding (imencode_jpg frame box) = Some name ->
  recognize_face env i frame box s = draw_rectangle frame box name s.
Proof.
  intros Hhit. unfold recognize_face, bind, get. rewrite Hhit. unfold ret.
  destruct (draw_rectangle frame box name s) as [[s' t] r]. reflexivity.
Qed.

(** Lines 114-116: a failed request is logged and answered by "Unknown";
    nothing is stored. *)
Lemma recognize_face_fails (env : tick_env) (i : nat) (frame : Frame) (box : FaceBox)
    (s : state) :
  recognized_faces_cache s !! hash_face_encoding (imencode_jpg frame box) = None ->
  request_fails (recognize_reply env i) ->
  exists msg,
    recognize_face env i frame box s =
      (s, [recognize_request (imencode_jpg frame box);
           Log ERROR ("Error recognizing face: " +:+ msg)],
       Returns (labelled frame box "Unknown")).
Proof.
  intros Hmiss Hfail. unfold recognize_face, bind, get. rewrite Hmiss.
  unfold try_except, requests_post, bind, emit.
  destruct Hfail as [msg|r Hr].
  - exists msg. simpl. rewrite draw_rectangle_str. reflexivity.
  - destruct (raise_for_status_error r Hr) as [msg Hmsg].
    exists msg. simpl. rewrite Hmsg. simpl. rewrite draw_rectangle_str. reflexivity.
Qed.


(** The same with a name that is a string: the whole result. *)
Lemma recognize_face_answer_str (env : tick_env) (i : nat) (frame : Frame) (box : FaceBox)
    (s : state) (r : Response) (d : list (string * pyval)) (name : string) :
  recognized_faces_cache s !! hash_face_encoding (imencode_jpg frame box) = None ->
  recognize_reply env i = PostReturns r ->
  raise_for_status r = inr tt ->
  json r = inr (PyDict d) ->
  dict_get d "name" (PyStr "Unknown") = PyStr name ->
  recognize_face env i frame box s =
    (cached (hash_face_encoding (imencode_jpg frame box)) (PyStr name) s,
     recognize_request (imencode_jpg frame box) ::
       (if String.eqb name "Unknown"
        then [Log INFO "Face not recognized. Consider adding this user."] else []),
     Returns (labelled frame box name)).
Proof.
  intros Hmiss Hreply Hstatus Hjson Hname. unfold recognize_face, bind, get. rewrite Hmiss.
  unfold try_except, requests_post, bind, emit. rewrite Hreply. simpl.
  rewrite Hstatus, Hjson. simpl. rewrite Hname. simpl.
  destruct (String.eqb name "Unknown"); simpl; rewrite draw_rectangle_str; reflexivity.
Qed.

(** ** What a tick can change *)

Lemma extends_refl (s : state) : extends s s.
Proof. repeat split; reflexivity. Qed.

Lemma extends_trans (s1 s2 s3 : state) : extends s1 s2 -> extends s2 s3 -> extends s1 s3.
Proof.
  intros (Ha & Hb & Hc & Hd) (Ha' & Hb' & Hc' & Hd').
  repeat split; try congruence. etrans; eassumption.
Qed.

Lemma extends_cached (s : state) (key : string) (v : pyval) :
  recognized_faces_cache s !! key = None -> extends s (cached key v s).
Proof.
  intros Hmiss. repeat split. simpl. apply insert_subseteq, Hmiss.
Qed.

(** Recognition of one face never touches the enrollment attributes, and
    only ever adds to the cache, under a key that was absent. *)
Lemma recognize_face_extends (env : tick_env) (i : nat) (frame : Frame) (box : FaceBox)
    (s : state) :
  extends s (state_of (recognize_face env i frame box s)).
Proof.
  destruct (recognized_faces_cache s !! hash_face_encoding (imencode_jpg frame box))
    as [name|] eqn:Hlook.
  - rewrite (recognize_face_hit _ _ _ _ _ _ Hlook).
    destruct (draw_rectangle_pure frame box name s) as [-> _]. apply extends_refl.
  - unfold recognize_face, bind, get. rewrite Hlook.
    unfold try_except, requests_post, bind, emit.
    destruct (recognize_reply env i) as [[msg|msg]|r]; simpl.
    + rewrite draw_rectangle_str. apply extends_refl.
    + apply extends_refl.
    + destruct (raise_for_status_cases r) as [->|[msg ->]]; simpl.
      2:{ rewrite draw_rectangle_str. apply extends_refl. }
      destruct (json r) as [[msg|msg]|body]; simpl.
      * rewrite draw_rectangle_str. apply extends_refl.
      * apply extends_refl.
      * destruct (py_get body "name" (PyStr "Unknown")) as [e|name] eqn:Hget.
        { destruct body; simpl in Hget; try discriminate; injection Hget as <-;
            apply extends_refl. }
        simpl.
        assert (Hext := extends_cached s _ name Hlook). unfold cached in Hext.
        destruct (py_eq_str name "Unknown"); simpl;
          match goal with |- context [draw_rectangle ?f ?b ?n ?st] =>
            destruct (draw_rectangle_pure f b n st) as [Hs _];
            destruct (draw_rectangle f b n st) as [[s' t] o] end;
          unfold state_of in *; simpl in *; subst s'; exact Hext.
Qed.

Lemma recognize_loop_extends (env : tick_env) (faces : list FaceBox) :
  forall (i : nat) (frame : Frame) (s : state),
    extends s (state_of (recognize_loop env i frame faces s)).
Proof.
  induction faces as [|box rest IH]; intros i frame s; simpl.
  - apply extends_refl.
  - unfold bind.
    pose proof (recognize_face_extends env i frame box s) as Hface.
    destruct (recognize_face env i frame box s) as [[s1 t1] [frame1|e]].
    + pose proof (IH (S i) frame1 s1) as Hrest.
      destruct (recognize_loop env (S i) frame1 rest s1) as [[s2 t2] o].
      unfold state_of in *; simpl in *. eapply extends_trans; eassumption.
    + exact Hface.
Qed.

(** ** Enrollment *)

(** [complete_add_user] leaves Idle mode behind and touches nothing else. *)
Lemma complete_add_user_state (env : tick_env) (s : state) :
  state_of (complete_add_user env s) = with_mode false s.
Proof.
  unfold complete_add_user, bind, set_adding_user_mode, emit. simpl.
  destruct (truthy (askstring_reply env)); [|reflexivity].
  unfold try_except, bind, get, requests_post, emit. simpl.
  destruct (add_user_reply env) as [[msg|msg]|r]; simpl; try reflexivity.
  destruct (raise_for_status_cases r) as [->|[msg ->]]; simpl; [|reflexivity].
  destruct (json r) as [[msg|msg]|body]; reflexivity.
Qed.

(** Lines 148-149: without a name there is the prompt and the warning. *)
Lemma complete_add_user_no_name (env : tick_env) (s : state) :
  truthy (askstring_reply env) = false ->
  complete_add_user env s =
    (with_mode false s,
     [AskString "Input" "Enter user name:";
      ShowWarning "Warning" "No user name entered. User not added."],
     Returns tt).
Proof.
  intros Hname. unfold complete_add_user, bind, set_adding_user_mode, emit. simpl.
  rewrite Hname. reflexivity.
Qed.

(** Lines 139-141: with a name, the buffer goes out in one request. *)
Lemma complete_add_user_posts (env : tick_env) (s : state) (name : string) :
  askstring_reply env = Some name -> name <> "" ->
  posts (trace_of (complete_add_user env s)) = [add_user_request (encodings s) name].
Proof.
  intros Hask Hname. unfold complete_add_user, bind, set_adding_user_mode, emit. simpl.
  rewrite Hask. simpl.
  destruct (String.eqb_spec name ""); [contradiction|]. simpl.
  unfold try_except, bind, get, requests_post, emit. simpl.
  destruct (add_user_reply env) as [[msg|msg]|r]; simpl; try reflexivity.
  destruct (raise_for_status_cases r) as [->|[msg ->]]; simpl; [|reflexivity].
  destruct (json r) as [[msg|msg]|body]; reflexivity.
Qed.

(** Lines 145-147: a failed request is logged and shown. *)
Lemma complete_add_user_fails (env : tick_env) (s : state) (name : string) :
  askstring_reply env = Some name -> name <> "" ->
  request_fails (add_user_reply env) ->
  exists msg,
    complete_add_user env s =
      (with_mode false s,
       [AskString "Input" "Enter user name:";
        add_user_request (encodings s) name;
        Log ERROR ("Error adding user: " +:+ msg);
        ShowError "Error" ("Error adding user: " +:+ msg)],
       Returns tt).
Proof.
  intros Hask Hname Hfail. unfold complete_add_user, bind, set_adding_user_mode, emit. simpl.
  rewrite Hask. simpl.
  destruct (String.eqb_spec name ""); [contradiction|]. simpl.
  unfold try_except, bind, get, requests_post, emit.
  destruct Hfail as [msg|r Hr].
  - exists msg. reflexivity.
  - destruct (raise_for_status_error r Hr) as [msg Hmsg].
    exists msg. simpl. rewrite Hmsg. reflexivity.
Qed.

(** One turn of the sample loop (lines 86-95): draw the box, append the
    crop, log, then complete or go on. *)
Lemma enroll_loop_cons (env : tick_env) (frame : Frame) (x y w h : Z)
    (rest : list FaceBox) (s : state) :
  let frame1 := cv2_rectangle frame (x, y) (x + w, y + h) (255, 0, 0) 2 in
  let s1 := with_encodings (encodings s ++ [imencode_jpg frame1 (x, y, w, h)]) s in
  enroll_loop env frame ((x, y, w, h) :: rest) s =
    (let '(s2, t2, o) :=
       (if (num_photos s1 <=? length (encodings s1))%nat
        then bind (complete_add_user env) (fun _ => ret frame1)
        else enroll_loop env frame1 rest) s1 in
     (s2, Log INFO ("Captured " +:+ pretty (length (encodings s1)) +:+ " images") :: t2, o)).
Proof.
  intros frame1 s1. simpl. unfold bind, get, set_encodings, emit. simpl.
  fold frame1. fold s1. destruct (_ s1) as [[s2 t2] o]. reflexivity.
Qed.

(** The sample loop of a tick.  From a buffer that is short of
    [num_photos], either the faces run out first, and the buffer is still
    short and nothing was sent; or the buffer reaches [num_photos] exactly,
    and what follows is [complete_add_user] on that buffer. *)
Lemma enroll_loop_spec (env : tick_env) (faces : list FaceBox) :
  forall (frame : Frame) (s : state),
    (length (encodings s) < num_photos s)%nat ->
    (exists new frame',
        length new = length faces /\
        state_of (enroll_loop env frame faces s) = with_encodings (encodings s ++ new) s /\
        (length (encodings s ++ new) < num_photos s)%nat /\
        posts (trace_of (enroll_loop env frame faces s)) = [] /\
        outcome_of (enroll_loop env frame faces s) = Returns frame') \/
    (exists new,
        length (encodings s ++ new) = num_photos s /\
        state_of (enroll_loop env frame faces s) =
          with_mode false (with_encodings (encodings s ++ new) s) /\
        posts (trace_of (enroll_loop env frame faces s)) =
          posts (trace_of (complete_add_user env (with_encodings (encodings s ++ new) s)))).
Proof.
  induction faces as [|[[[x y] w] h] rest IH]; intros frame s Hshort.
  - left. exists [], frame. simpl. rewrite app_nil_r.
    destruct s; split; [reflexivity|repeat split; assumption].
  - rewrite enroll_loop_cons.
    set (frame1 := cv2_rectangle frame (x, y) (x + w, y + h) (255, 0, 0) 2).
    set (enc := imencode_jpg frame1 (x, y, w, h)).
    set (s1 := with_encodings (encodings s ++ [enc]) s).
    assert (Hlen1 : length (encodings s1) = S (length (encodings s)))
      by (subst s1; simpl; rewrite length_app; simpl; lia).
    change (num_photos s1) with (num_photos s).
    destruct (num_photos s <=? length (encodings s1))%nat eqn:Hfull.
    + right. exists [enc]. apply Nat.leb_le in Hfull.
      split; [change (encodings s ++ [enc]) with (encodings s1); lia|].
      fold s1. unfold bind.
      pose proof (complete_add_user_state env s1) as Hst.
      destruct (complete_add_user env s1) as [[s2 t2] [[]|e]];
        unfold state_of, trace_of in Hst |- *; simpl in Hst |- *; rewrite ?app_nil_r;
        (split; [exact Hst|reflexivity]).
    + apply Nat.leb_gt in Hfull.
      specialize (IH frame1 s1 Hfull).
      destruct (enroll_loop env frame1 rest s1) as [[s2 t2] o2].
      unfold state_of, trace_of, outcome_of in IH |- *. cbn [fst snd] in IH |- *.
      change (num_photos s1) with (num_photos s) in IH.
      assert (Happ : forall new, encodings s1 ++ new = encodings s ++ enc :: new)
        by (intros new; subst s1; simpl; rewrite <- app_assoc; reflexivity).
      assert (Hwe : forall l, with_encodings l s1 = with_encodings l s) by reflexivity.
      destruct IH as [(new & frame' & Hnew & Hs & Hlen & Hposts & Hout)
                     |(new & Hlen & Hs & Hposts)].
      * left. exists (enc :: new), frame'.
        rewrite Happ, Hwe in Hs. rewrite Happ in Hlen.
        split; [simpl; rewrite Hnew; reflexivity|].
        repeat split; [exact Hs|exact Hlen|exact Hposts|exact Hout].
      * right. exists (enc :: new).
        rewrite Happ, Hwe in Hs. rewrite Happ in Hlen. rewrite Happ, Hwe in Hposts.
        repeat split; [exact Hlen|exact Hs|exact Hposts].
Qed.

(** The sample loop never touches the cache. *)
Lemma enroll_loop_cache (env : tick_env) (faces : list FaceBox) :
  forall (frame : Frame) (s : state),
    recognized_faces_cache (state_of (enroll_loop env frame faces s)) =
    recognized_faces_cache s.
Proof.
  induction faces as [|[[[x y] w] h] rest IH]; intros frame s; [reflexivity|].
  rewrite enroll_loop_cons.
  set (frame1 := cv2_rectangle frame (x, y) (x + w, y + h) (255, 0, 0) 2).
  set (s1 := with_encodings _ s).
  destruct (num_photos s1 <=? length (encodings s1))%nat.
  - unfold bind. pose proof (complete_add_user_state env s1) as Hst.
    destruct (complete_add_user env s1) as [[s2 t2] [[]|e]];
      unfold state_of in Hst |- *; simpl in Hst |- *; subst s2; reflexivity.
  - specialize (IH frame1 s1).
    destruct (enroll_loop env frame1 rest s1) as [[s2 t2] o2].
    unfold state_of in IH |- *. simpl in IH |- *. exact IH.
Qed.

(** ** The tick *)

(** [update_frame] is its [try] block, followed by the log line and the
    error dialog of lines 125-127 when the block raises. *)
Lemma update_frame_unfold (env : tick_env) (s : state) :
  update_frame env s =
    match update_frame_try env s with
    | (s1, t1, Returns _) => (s1, t1, Returns tt)
    | (s1, t1, Raises e) =>
        (s1, t1 ++ [Log ERROR ("Error updating frame: " +:+ str_of_exn e);
                    ShowError "Error" ("Error updating frame: " +:+ str_of_exn e)],
         Returns tt)
    end.
Proof.
  unfold update_frame, try_except. fold (update_frame_try env).
  destruct (update_frame_try env s) as [[s1 t1] [[]|e]]; reflexivity.
Qed.

(** The handler of line 125 catches everything: a tick always returns. *)
Lemma update_frame_returns (env : tick_env) (s : state) :
  outcome_of (update_frame env s) = Returns tt.
Proof.
  rewrite update_frame_unfold.
  destruct (update_frame_try env s) as [[s1 t1] [[]|e]]; reflexivity.
Qed.

Lemma update_frame_state (env : tick_env) (s : state) :
  state_of (update_frame env s) = state_of (update_frame_try env s).
Proof.
  rewrite update_frame_unfold.
  destruct (update_frame_try env s) as [[s1 t1] [[]|e]]; reflexivity.
Qed.

(** The state after the [try] block is the state after the loop. *)
Lemma update_frame_try_state (env : tick_env) (img : Image) (s : state) :
  read env = Some img ->
  state_of (update_frame_try env s) =
    state_of ((if adding_user_mode s
               then enroll_loop env {| pixels := img; overlays := [] |} (detectMultiScale img)
               else recognize_loop env 0 {| pixels := img; overlays := [] |}
                      (detectMultiScale img)) s).
Proof.
  intros Hread. unfold update_frame_try. rewrite Hread. unfold bind, get, emit.
  destruct (adding_user_mode s).
  - destruct (enroll_loop _ _ _ s) as [[s1 t1] [frame1|e]]; reflexivity.
  - destruct (recognize_loop _ _ _ _ s) as [[s1 t1] [frame1|e]]; reflexivity.
Qed.

(** In recognition mode a tick leaves the enrollment attributes alone and
    only adds to the cache. *)
Lemma update_frame_idle (env : tick_env) (s : state) :
  adding_user_mode s = false -> extends s (state_of (update_frame env s)).
Proof.
  intros Hmode. rewrite update_frame_state.
  destruct (read env) as [img|] eqn:Hread.
  - rewrite (update_frame_try_state env img s Hread), Hmode.
    apply recognize_loop_extends.
  - unfold update_frame_try. rewrite Hread. apply extends_refl.
Qed.

(** A tick never removes or replaces a cache entry. *)
Lemma update_frame_cache (env : tick_env) (s : state) :
  recognized_faces_cache s ⊆ recognized_faces_cache (state_of (update_frame env s)).
Proof.
  destruct (adding_user_mode s) eqn:Hmode.
  - rewrite update_frame_state.
    destruct (read env) as [img|] eqn:Hread.
    + rewrite (update_frame_try_state env img s Hread), Hmode, enroll_loop_cache.
      reflexivity.
    + unfold update_frame_try. rewrite Hread. reflexivity.
  - apply (update_frame_idle env s Hmode).
Qed.

(** ** Runs *)

Lemma step_returns (a : action) (s : state) : outcome_of (step a s) = Returns tt.
Proof. destruct a as [env|]; [apply update_frame_returns|reflexivity]. Qed.

Lemma run_cons (a : action) (rest : list action) (s : state) :
  state_of (run (a :: rest) s) = state_of (run rest (state_of (step a s))).
Proof.
  simpl. unfold bind. pose proof (step_returns a s) as Hret.
  destruct (step a s) as [[s1 t1] o]. unfold outcome_of in Hret. simpl in Hret. subst o.
  unfold state_of. simpl. destruct (run rest s1) as [[s2 t2] o2]. reflexivity.
Qed.

Lemma step_cache (a : action) (s : state) :
  recognized_faces_cache s ⊆ recognized_faces_cache (state_of (step a s)).
Proof. destruct a as [env|]; [apply update_frame_cache|reflexivity]. Qed.

(** Cache entries are for the life of the process. *)
Lemma run_cache (acts : list action) :
  forall s : state,
    recognized_faces_cache s ⊆ recognized_faces_cache (state_of (run acts s)).
Proof.
  induction acts as [|a rest IH]; intros s; [reflexivity|].
  rewrite run_cons. etrans; [apply step_cache|apply IH].
Qed.

Lemma init_buffer_inv : buffer_inv init.
Proof. split; [reflexivity|split; [simpl; lia|discriminate]]. Qed.

Lemma step_buffer_inv (a : action) (s : state) :
  buffer_inv s -> buffer_inv (state_of (step a s)).
Proof.
  intros (Hnum & Hle & Hlt). destruct a as [env|]; simpl.
  - destruct (adding_user_mode s) eqn:Hmode.
    + rewrite update_frame_state.
      destruct (read env) as [img|] eqn:Hread.
      * rewrite (update_frame_try_state env img s Hread), Hmode.
        destruct (enroll_loop_spec env (detectMultiScale img)
                    {| pixels := img; overlays := [] |} s (Hlt eq_refl))
          as [(new & frame' & _ & -> & Hlen & _)|(new & Hlen & -> & _)]; simpl.
        -- unfold buffer_inv. simpl. split; [exact Hnum|split; [lia|intros _; exact Hlen]].
        -- unfold buffer_inv. simpl. split; [exact Hnum|split; [lia|discriminate]].
      * unfold update_frame_try. rewrite Hread. simpl.
        split; [exact Hnum|split; [exact Hle|intros _; exact (Hlt eq_refl)]].
    + destruct (update_frame_idle env s Hmode) as (Ha & Hb & Hc & _).
      unfold buffer_inv. rewrite Ha, Hb, Hc.
      split; [exact Hnum|split; [exact Hle|congruence]].
  - unfold buffer_inv. simpl. split; [exact Hnum|split; [lia|intros _; lia]].
Qed.

Lemma run_buffer_inv (acts : list action) :
  forall s : state, buffer_inv s -> buffer_inv (state_of (run acts s)).
Proof.
  induction acts as [|a rest IH]; intros s Hinv; [exact Hinv|].
  rewrite run_cons. apply IH, step_buffer_inv, Hinv.
Qed.

(** The requests of a tick are the requests of its loop. *)
Lemma update_frame_posts (env : tick_env) (img : Image) (s : state) :
  read env = Some img ->
  posts (trace_of (update_frame env s)) =
    posts (trace_of ((if adding_user_mode s
                      then enroll_loop env {| pixels := img; overlays := [] |}
                             (detectMultiScale img)
                      else recognize_loop env 0 {| pixels := img; overlays := [] |}
                             (detectMultiScale img)) s)).
Proof.
  intros Hread. rewrite update_frame_unfold.
  unfold update_frame_try. rewrite Hread. unfold bind, get, emit.
  destruct (adding_user_mode s);
    [destruct (enroll_loop _ _ _ s) as [[s1 t1] [frame1|e]]
    |destruct (recognize_loop _ _ _ _ s) as [[s1 t1] [frame1|e]]];
    unfold trace_of, posts; simpl; rewrite ?List.filter_app; simpl;
    rewrite ?app_nil_r; reflexivity.
Qed.

(** A run in two parts. *)
Lemma run_app (acts1 acts2 : list action) :
  forall s : state,
    state_of (run (acts1 ++ acts2) s) = state_of (run acts2 (state_of (run acts1 s))).
Proof.
  induction acts1 as [|a rest IH]; intros s; [reflexivity|].
  rewrite <- app_comm_cons, !run_cons. apply IH.
Qed.

(** Ticks alone, from Idle mode, leave the mode and the sample buffer
    alone. *)
Lemma idle_ticks_extend (envs : list tick_env) :
  forall s : state,
    adding_user_mode s = false -> extends s (state_of (run (map Tick envs) s)).
Proof.
  induction envs as [|env rest IH]; intros s Hmode; [apply extends_refl|].
  simpl map. rewrite run_cons. simpl step.
  pose proof (update_frame_idle env s Hmode) as Hext.
  eapply extends_trans; [exact Hext|]. apply IH.
  destruct Hext as (Hm & _). congruence.
Qed.

(** The sample loop from a buffer short of [num_photos]: the buffer grows by
    the crops of the faces, in order, as many as it takes to fill it. *)
Lemma enroll_loop_crops (env : tick_env) (faces : list FaceBox) :
  forall (frame : Frame) (s : state),
    (length (encodings s) < num_photos s)%nat ->
    encodings (state_of (enroll_loop env frame faces s)) =
      encodings s ++ take (num_photos s - length (encodings s)) (captured_crops frame faces).
Proof.
  induction faces as [|[[[x y] w] h] rest IH]; intros frame s Hshort.
  - simpl. rewrite take_nil, app_nil_r. reflexivity.
  - rewrite enroll_loop_cons.
    set (frame1 := cv2_rectangle frame (x, y) (x + w, y + h) (255, 0, 0) 2).
    set (enc := imencode_jpg frame1 (x, y, w, h)).
    set (s1 := with_encodings (encodings s ++ [enc]) s).
    assert (Hlen1 : length (encodings s1) = S (length (encodings s)))
      by (subst s1; simpl; rewrite length_app; simpl; lia).
    change (captured_crops frame ((x, y, w, h) :: rest))
      with (enc :: captured_crops frame1 rest).
    change (num_photos s1) with (num_photos s).
    destruct (Nat.leb_spec (num_photos s) (length (encodings s1))) as [Hfull|Hfree].
    + replace (num_photos s - length (encodings s))%nat with 1%nat by lia.
      match goal with |- context [state_of ?r] =>
        assert (Hstate : state_of r = with_mode false s1) end.
      { unfold bind. pose proof (complete_add_user_state env s1) as Hst.
        destruct (complete_add_user env s1) as [[s2 t2] [[]|e]];
          unfold state_of in Hst |- *; simpl in Hst |- *; exact Hst. }
      rewrite Hstate. simpl. rewrite take_0. reflexivity.
    + pose proof (IH frame1 s1 Hfree) as Henc.
      destruct (enroll_loop env frame1 rest s1) as [[s2 t2] o2].
      unfold state_of in Henc |- *. cbn [fst snd] in Henc |- *.
      rewrite Henc. change (num_photos s1) with (num_photos s). rewrite Hlen1.
      replace (num_photos s - length (encodings s))%nat
        with (S (num_photos s - S (length (encodings s))))%nat by lia.
      subst s1. simpl. rewrite <- app_assoc. reflexivity.
Qed.

(** ** The claims of the specification *)


(** C3, as amended.  When enrollment completes with an empty or cancelled
    name prompt, [complete_add_user] shows the prompt and the warning and
    nothing else: no request is made.  When a name was typed and the
    enrollment request fails, it makes the request, logs the error and
    shows the error dialog.  Either way the mode is Idle and every other
    attribute, the sample buffer among them, is what it was.  The buffer
    still holds the samples of the session after any number of further
    ticks, and it is the next "Add User" that empties it. *)
Theorem failed_enrollment_keeps_buffer (env : tick_env) (s : state) :
  truthy (askstring_reply env) = false \/ request_fails (add_user_reply env) ->
  (truthy (askstring_reply env) = false /\
   complete_add_user env s =
     (with_mode false s,
      [AskString "Input" "Enter user name:";
       ShowWarning "Warning" "No user name entered. User not added."],
      Returns tt)
   \/
   exists name msg,
     askstring_reply env = Some name /\ name <> "" /\
     complete_add_user env s =
       (with_mode false s,
        [AskString "Input" "Enter user name:";
         add_user_request (encodings s) name;
         Log ERROR ("Error adding user: " +:+ msg);
         ShowError "Error" ("Error adding user: " +:+ msg)],
        Returns tt)) /\
  (forall envs : list tick_env,
     encodings (state_of (run (map Tick envs) (state_of (complete_add_user env s))))
       = encodings s /\
     adding_user_mode (state_of (run (map Tick envs) (state_of (complete_add_user env s))))
       = false /\
     encodings (state_of (run (map Tick envs ++ [AddUser])
                              (state_of (complete_add_user env s)))) = []).
Proof.
  intros Hcase. split.
  - destruct (truthy (askstring_reply env)) eqn:Hname.
    + right. destruct Hcase as [Hc|Hfail]; [discriminate|].
      destruct (askstring_reply env) as [name|] eqn:Hask; [|discriminate].
      assert (Hne : name <> "") by (intros ->; discriminate).
      destruct (complete_add_user_fails env s name Hask Hne Hfail) as [msg Hres].
      exists name, msg. repeat split; assumption.
    + left. split; [reflexivity|]. apply complete_add_user_no_name, Hname.
  - intros envs. rewrite complete_add_user_state.
    destruct (idle_ticks_extend envs (with_mode false s) eq_refl) as (Hm & _ & He & _).
    split; [exact He|]. split; [exact Hm|].
    rewrite run_app. reflexivity.
Qed.

(** C4.  In every run of the application from its start, whatever the
    camera, the detector, the server and the user do, the sample buffer
    never holds more than 5 crops, and it holds fewer than 5 as long as
    samples are being collected (the mode is still Enrolling).  Within a
    tick the buffer only grows ([enroll_loop_spec]), so the bound at the end
    of the tick is a bound for the whole tick. *)
Theorem sample_buffer_bounded (acts : list action) :
  (length (encodings (state_of (run acts init))) <= 5)%nat /\
  (adding_user_mode (state_of (run acts init)) = true ->
   (length (encodings (state_of (run acts init))) < 5)%nat).
Proof.
  destruct (run_buffer_inv acts init init_buffer_inv) as (Hnum & Hle & Hlt).
  rewrite Hnum in Hle, Hlt. split; assumption.
Qed.

(** C5.  When the name prompt is cancelled or left empty,
    [complete_add_user] makes no request at all, warns, and leaves the
    application in Idle mode. *)
Theorem no_name_no_request (env : tick_env) (s : state) :
  askstring_reply env = None \/ askstring_reply env = Some "" ->
  posts (trace_of (complete_add_user env s)) = [] /\
  adding_user_mode (state_of (complete_add_user env s)) = false.
Proof.
  intros Hname.
  assert (Hfalse : truthy (askstring_reply env) = false)
    by (destruct Hname as [-> | ->]; reflexivity).
  rewrite (complete_add_user_no_name env s Hfalse). split; reflexivity.
Qed.

(** C6.  A tick whose frame has no detected face, in either mode: the state
    is unchanged, nothing is requested, the frame is put on the canvas as it
    was read, without overlays, and the next tick is scheduled. *)
Theorem no_face_tick (env : tick_env) (img : Image) (s : state) :
  read env = Some img ->
  detectMultiScale img = [] ->
  update_frame env s =
    (s, [CreateImage {| pixels := img; overlays := [] |}; After 10], Returns tt).
Proof.
  intros Hread Hnone. unfold update_frame, update_frame_try, try_except.
  rewrite Hread, Hnone.
  unfold bind, get. destruct (adding_user_mode s); reflexivity.
Qed.

(** C7, as amended.  A recognition attempt whose transport fails, or whose
    answer has a client-error or server-error status (400 to 599): the
    error is caught and logged, the label drawn for the face is "Unknown",
    and the state is unchanged.  No exception ever leaves a tick. *)
Theorem failed_recognition_is_unknown (env : tick_env) (i : nat) (frame : Frame)
    (box : FaceBox) (s : state) :
  recognized_faces_cache s !! hash_face_encoding (imencode_jpg frame box) = None ->
  request_fails (recognize_reply env i) ->
  (exists msg,
      recognize_face env i frame box s =
        (s, [recognize_request (imencode_jpg frame box);
             Log ERROR ("Error recognizing face: " +:+ msg)],
         Returns (labelled frame box "Unknown"))) /\
  (forall env' s', outcome_of (update_frame env' s') = Returns tt).
Proof.
  intros Hmiss Hfail. split.
  - apply recognize_face_fails; assumption.
  - intros env' s'. apply update_frame_returns.
Qed.

(** C8.  Once a label is cached for the hash of a crop's bytes, then after
    any further run of the application, recognizing any crop with the same
    bytes draws that label, makes no request and changes nothing. *)
Theorem cache_hit_determinism (s : state) (acts : list action) (env : tick_env) (i : nat)
    (frame1 frame2 : Frame) (box1 box2 : FaceBox) (label : pyval) :
  imencode_jpg frame2 box2 = imencode_jpg frame1 box1 ->
  recognized_faces_cache s !! hash_face_encoding (imencode_jpg frame1 box1) = Some label ->
  recognize_face env i frame2 box2 (state_of (run acts s)) =
    draw_rectangle frame2 box2 label (state_of (run acts s)) /\
  posts (trace_of (recognize_face env i frame2 box2 (state_of (run acts s)))) = [] /\
  state_of (recognize_face env i frame2 box2 (state_of (run acts s))) = state_of (run acts s).
Proof.
  intros Hbytes Hcached.
  assert (Hhit : recognized_faces_cache (state_of (run acts s))
                   !! hash_face_encoding (imencode_jpg frame2 box2) = Some label).
  { rewrite Hbytes. eapply lookup_weaken; [exact Hcached|apply run_cache]. }
  rewrite (recognize_face_hit env i frame2 box2 _ label Hhit).
  destruct (draw_rectangle_pure frame2 box2 label (state_of (run acts s))) as [Hs Ht].
  rewrite Ht. repeat split. exact Hs.
Qed.

(** C9.  In any run from the start, a tick in Enrolling mode whose picture
    has enough faces to fill the sample buffer completes the session; when
    the user then types a name, the tick makes exactly one request: a POST
    to [add_user] with that name and 5 files, which are, in order and
    under the names [image_0.jpg] to [image_4.jpg], the encoded crops of
    the buffer: those it held, then the crops of this tick's faces.  The
    mode is Idle afterwards. *)
Theorem enrollment_sends_five (acts : list action) (env : tick_env) (img : Image)
    (name : string) :
  adding_user_mode (state_of (run acts init)) = true ->
  read env = Some img ->
  (5 <= length (encodings (state_of (run acts init))) + length (detectMultiScale img))%nat ->
  askstring_reply env = Some name ->
  name <> "" ->
  exists crops,
    length crops = 5%nat /\
    crops = encodings (state_of (run acts init)) ++
            take (5 - length (encodings (state_of (run acts init))))
                 (captured_crops {| pixels := img; overlays := [] |} (detectMultiScale img)) /\
    encodings (state_of (update_frame env (state_of (run acts init)))) = crops /\
    posts (trace_of (update_frame env (state_of (run acts init)))) =
      [Post add_user_url
            (imap (fun i crop =>
                     ("file", FileTuple ("image_" +:+ pretty i +:+ ".jpg") crop "image/jpeg"))
                  crops)
            [("name", name)]] /\
    adding_user_mode (state_of (update_frame env (state_of (run acts init)))) = false.
Proof.
  pose proof (run_buffer_inv acts init init_buffer_inv) as (Hnum & _ & Hlt).
  generalize dependent (state_of (run acts init)).
  intros s Hnum Hlt Hmode Hread Hfaces Hask Hname.
  rewrite update_frame_state, (update_frame_posts env img s Hread).
  rewrite (update_frame_try_state env img s Hread), Hmode.
  pose proof (enroll_loop_crops env (detectMultiScale img) {| pixels := img; overlays := [] |}
                s (Hlt Hmode)) as Hcrops.
  rewrite Hnum in Hcrops.
  destruct (enroll_loop_spec env (detectMultiScale img) {| pixels := img; overlays := [] |} s
              (Hlt Hmode))
    as [(new & frame' & Hnew & _ & Hshort & _)|(new & Hlen & Hs & Hposts)].
  - rewrite length_app, Hnew in Hshort. lia.
  - rewrite Hs in Hcrops |- *. simpl in Hcrops |- *. rewrite Hposts.
    exists (encodings s ++ new).
    split; [lia|]. split; [exact Hcrops|]. split; [reflexivity|]. split; [|reflexivity].
    exact (complete_add_user_posts env (with_encodings (encodings s ++ new) s) name Hask Hname).
Qed.


(** ** Further properties of the program *)

(** *** One face, in full *)

Lemma draw_rectangle_cases (frame : Frame) (box : FaceBox) (v : pyval) (s : state) :
  (exists name, text_of_pyval v = Some name /\
     draw_rectangle frame box v s = (s, [], Returns (labelled frame box name))) \/
  (text_of_pyval v = None /\
     exists msg, draw_rectangle frame box v s = (s, [], Raises (OtherException msg))).
Proof.
  destruct box as [[[x y] w] h].
  destruct v; try (right; split; [reflexivity|eexists; reflexivity]);
    left; eexists; split; reflexivity.
Qed.

(** What the body of the recognition loop can do on a miss: one request,
    then log lines; the state is the one before, or the one before with the
    crop's hash stored; the frame, if there is one, has the face labelled;
    an exception, if there is one, is not a [RequestException]. *)
Lemma recognize_face_miss (env : tick_env) (i : nat) (frame : Frame) (box : FaceBox)
    (s : state) :
  recognized_faces_cache s !! hash_face_encoding (imencode_jpg frame box) = None ->
  exists s' logs o,
    recognize_face env i frame box s =
      (s', recognize_request (imencode_jpg frame box) :: logs, o) /\
    forallb is_log logs = true /\
    (s' = s \/ exists v, s' = cached (hash_face_encoding (imencode_jpg frame box)) v s) /\
    match o with
    | Returns frame' => exists name, frame' = labelled frame box name
    | Raises e => is_RequestException e = false
    end.
Proof.
  intros Hlook. unfold recognize_face, bind, get. rewrite Hlook.
  unfold try_except, requests_post, bind, emit.
  destruct (recognize_reply env i) as [[msg|msg]|r]; simpl.
  - rewrite draw_rectangle_str. do 3 eexists. split; [reflexivity|].
    split; [reflexivity|]. split; [left; reflexivity|eexists; reflexivity].
  - do 3 eexists. split; [reflexivity|].
    split; [reflexivity|]. split; [left; reflexivity|reflexivity].
  - destruct (raise_for_status_cases r) as [->|[msg ->]]; simpl.
    2:{ rewrite draw_rectangle_str. do 3 eexists. split; [reflexivity|].
        split; [reflexivity|]. split; [left; reflexivity|eexists; reflexivity]. }
    destruct (json r) as [[msg|msg]|body]; simpl.
    + rewrite draw_rectangle_str. do 3 eexists. split; [reflexivity|].
      split; [reflexivity|]. split; [left; reflexivity|eexists; reflexivity].
    + do 3 eexists. split; [reflexivity|].
      split; [reflexivity|]. split; [left; reflexivity|reflexivity].
    + destruct (py_get body "name" (PyStr "Unknown")) as [e|name] eqn:Hget.
      { destruct body; simpl in Hget; try discriminate; injection Hget as <-;
          (do 3 eexists; split; [reflexivity|];
           split; [reflexivity|]; split; [left; reflexivity|reflexivity]). }
      simpl.
      destruct (py_eq_str name "Unknown"); simpl;
        match goal with |- context [draw_rectangle ?f ?b ?n ?st] =>
          destruct (draw_rectangle_cases f b n st) as [(nm & _ & ->)|(_ & m & ->)] end;
        (do 3 eexists; split; [reflexivity|]; split; [reflexivity|];
         split; [right; eexists; reflexivity|]);
        first [eexists; reflexivity|reflexivity].
Qed.

(** The same for a hit or a miss, as far as the recognition loop needs it. *)
Lemma recognize_face_shape (env : tick_env) (i : nat) (frame : Frame) (box : FaceBox)
    (s : state) :
  Forall (fun e => is_log e = true \/ exists b, e = recognize_request b)
         (trace_of (recognize_face env i frame box s)) /\
  (length (posts (trace_of (recognize_face env i frame box s))) <= 1)%nat /\
  match outcome_of (recognize_face env i frame box s) with
  | Returns frame' => exists name, frame' = labelled frame box name
  | Raises e => is_RequestException e = false
  end.
Proof.
  destruct (recognized_faces_cache s !! hash_face_encoding (imencode_jpg frame box))
    as [v|] eqn:Hlook.
  - rewrite (recognize_face_hit env i frame box s v Hlook).
    destruct (draw_rectangle_cases frame box v s) as [(nm & _ & ->)|(_ & m & ->)]; simpl;
      (split; [constructor|]); (split; [lia|]); [eexists; reflexivity|reflexivity].
  - destruct (recognize_face_miss env i frame box s Hlook)
      as (s' & logs & o & -> & Hlogs & _ & Ho).
    unfold trace_of, outcome_of. simpl. split; [|split; [|exact Ho]].
    + constructor; [right; eexists; reflexivity|].
      apply Forall_forall. intros e He. left.
      rewrite forallb_forall in Hlogs. apply Hlogs. apply list_elem_of_In. exact He.
    + assert (Hnone : posts logs = []).
      { clear -Hlogs. induction logs as [|e logs IH]; [reflexivity|].
        simpl in Hlogs. apply andb_prop in Hlogs as [He Hl].
        destruct e; try discriminate. simpl. apply IH, Hl. }
      unfold posts in *. simpl. rewrite Hnone. simpl. lia.
Qed.

Lemma labelled_shape (frame : Frame) (box : FaceBox) (name : string) :
  pixels (labelled frame box name) = pixels frame /\
  length (overlays (labelled frame box name)) = (length (overlays frame) + 2)%nat.
Proof.
  destruct box as [[[x y] w] h]. simpl. split; [reflexivity|].
  rewrite !length_app. simpl. lia.
Qed.

Lemma recognize_loop_cons (env : tick_env) (i : nat) (frame : Frame) (box : FaceBox)
    (rest : list FaceBox) (s : state) :
  recognize_loop env i frame (box :: rest) s =
    match recognize_face env i frame box s with
    | (s1, t1, Returns frame1) =>
        let '(s2, t2, o) := recognize_loop env (S i) frame1 rest s1 in (s2, t1 ++ t2, o)
    | (s1, t1, Raises e) => (s1, t1, Raises e)
    end.
Proof. reflexivity. Qed.

(** The recognition loop of a tick: its trace is made of log lines and
    recognition requests, at most one request per face; a frame that comes
    out has the pixels it came in with and one box and one label more per
    face; an exception that comes out is not a [RequestException]. *)
Lemma recognize_loop_shape (env : tick_env) (faces : list FaceBox) :
  forall (i : nat) (frame : Frame) (s : state),
    Forall (fun e => is_log e = true \/ exists b, e = recognize_request b)
           (trace_of (recognize_loop env i frame faces s)) /\
    (length (posts (trace_of (recognize_loop env i frame faces s))) <= length faces)%nat /\
    match outcome_of (recognize_loop env i frame faces s) with
    | Returns frame' =>
        pixels frame' = pixels frame /\
        length (overlays frame') = (length (overlays frame) + 2 * length faces)%nat
    | Raises e => is_RequestException e = false
    end.
Proof.
  induction faces as [|box rest IH]; intros i frame s.
  - simpl. split; [constructor|]. split; [simpl; lia|]. split; [reflexivity|lia].
  - rewrite recognize_loop_cons.
    destruct (recognize_face_shape env i frame box s) as (Ht & Hp & Ho).
    destruct (recognize_face env i frame box s) as [[s1 t1] [frame1|e]];
      unfold trace_of, outcome_of in Ht, Hp, Ho; simpl in Ht, Hp, Ho.
    + destruct Ho as [name ->].
      destruct (IH (S i) (labelled frame box name) s1) as (Ht' & Hp' & Ho').
      destruct (labelled_shape frame box name) as [Hpix Hlen].
      destruct (recognize_loop env (S i) (labelled frame box name) rest s1) as [[s2 t2] o].
      unfold trace_of, outcome_of in Ht', Hp', Ho' |- *. simpl in Ht', Hp', Ho' |- *.
      split; [apply Forall_app; split; assumption|].
      split; [unfold posts in *; rewrite List.filter_app, length_app; lia|].
      destruct o as [frame'|e]; [|exact Ho'].
      destruct Ho' as [Hpix' Hlen']. split; [congruence|lia].
    + unfold trace_of, outcome_of. simpl.
      split; [exact Ht|]. split; [lia|exact Ho].
Qed.

(** *** Completion and the sample loop, in full *)

(** Every run of [complete_add_user]: the prompt comes first and once; a
    request, if any, is the enrollment request for the buffer, and there is
    at most one; no tick is scheduled; an exception that comes out is not a
    [RequestException]. *)
Lemma complete_add_user_shape (env : tick_env) (s : state) :
  exists rest,
    trace_of (complete_add_user env s) = AskString "Input" "Enter user name:" :: rest /\
    Forall (fun e => is_after e = false /\ is_prompt e = false /\
                     (forall frame, e <> CreateImage frame) /\
                     (is_post e = true -> exists name, e = add_user_request (encodings s) name))
           rest /\
    (length (posts rest) <= 1)%nat /\
    match outcome_of (complete_add_user env s) with
    | Returns _ => True
    | Raises e => is_RequestException e = false
    end.
Proof.
  unfold complete_add_user, bind, set_adding_user_mode, emit. simpl.
  destruct (truthy (askstring_reply env)).
  2:{ eexists. split; [reflexivity|]. split; [|split; [simpl; lia|exact I]].
      repeat constructor; discriminate. }
  unfold try_except, bind, get, requests_post, emit. simpl.
  destruct (add_user_reply env) as [[msg|msg]|r]; simpl.
  1,2: (eexists; split; [reflexivity|]; split; [|split; [simpl; lia|reflexivity || exact I]];
        repeat constructor; try discriminate; intros _; eexists; reflexivity).
  destruct (raise_for_status_cases r) as [->|[msg ->]]; simpl.
  2:{ eexists. split; [reflexivity|]. split; [|split; [simpl; lia|exact I]].
      repeat constructor; try discriminate. intros _. eexists. reflexivity. }
  destruct (json r) as [[msg|msg]|body]; simpl;
    (eexists; split; [reflexivity|]; split; [|split; [simpl; lia|reflexivity || exact I]];
     repeat constructor; try discriminate; intros _; eexists; reflexivity).
Qed.

(** The sample loop of a tick, on any buffer: log lines, then possibly one
    run of [complete_add_user]; the frame that comes out has the pixels it
    came in with and some boxes more, no label. *)
Lemma enroll_loop_shape (env : tick_env) (faces : list FaceBox) :
  forall (frame : Frame) (s : state),
    (exists logs rest,
        trace_of (enroll_loop env frame faces s) = logs ++ rest /\
        forallb is_log logs = true /\
        (rest = [] \/ exists s', rest = trace_of (complete_add_user env s'))) /\
    match outcome_of (enroll_loop env frame faces s) with
    | Returns frame' =>
        pixels frame' = pixels frame /\
        exists boxes, overlays frame' = overlays frame ++ boxes /\
                      forallb is_rectangle boxes = true /\
                      (length boxes <= length faces)%nat
    | Raises e => is_RequestException e = false
    end.
Proof.
  induction faces as [|[[[x y] w] h] rest IH]; intros frame s.
  - simpl. split.
    + exists [], []. split; [reflexivity|]. split; [reflexivity|left; reflexivity].
    + split; [reflexivity|]. exists []. rewrite app_nil_r. repeat split. simpl. lia.
  - rewrite enroll_loop_cons.
    set (frame1 := cv2_rectangle frame (x, y) (x + w, y + h) (255, 0, 0) 2).
    set (s1 := with_encodings _ s).
    set (line := Log INFO _).
    destruct (num_photos s1 <=? length (encodings s1))%nat.
    + unfold bind.
      destruct (complete_add_user_shape env s1) as (tl & Htr & _ & _ & Ho).
      destruct (complete_add_user env s1) as [[s2 t2] [[]|e]] eqn:Hc;
        unfold trace_of, outcome_of in Htr, Ho |- *; simpl in Htr, Ho |- *.
      * split.
        -- exists [line], t2. rewrite app_nil_r. split; [reflexivity|].
           split; [reflexivity|]. right. exists s1. rewrite Hc. reflexivity.
        -- split; [reflexivity|]. eexists. split; [reflexivity|]. split; [reflexivity|].
           simpl. lia.
      * split.
        -- exists [line], t2. split; [reflexivity|].
           split; [reflexivity|]. right. exists s1. rewrite Hc. reflexivity.
        -- exact Ho.
    + destruct (IH frame1 s1) as ((logs & tl & Htr & Hlogs & Htl) & Ho).
      destruct (enroll_loop env frame1 rest s1) as [[s2 t2] o2].
      unfold trace_of, outcome_of in Htr, Htl, Ho |- *. simpl in Htr, Htl, Ho |- *.
      split.
      * exists (line :: logs), tl. subst t2. split; [reflexivity|].
        split; [simpl; exact Hlogs|exact Htl].
      * destruct o2 as [frame'|e]; [|exact Ho].
        destruct Ho as (Hpix & boxes & Hov & Hall & Hlen).
        split; [exact Hpix|].
        exists (Rectangle (x, y) (x + w, y + h) (255, 0, 0) 2 :: boxes).
        split; [rewrite Hov; simpl; rewrite <- app_assoc; reflexivity|].
        split; [exact Hall|simpl; lia].
Qed.

(** *** The tick, in full *)

Lemma filter_none {A} (f : A -> bool) (l : list A) :
  Forall (fun x => f x = false) l -> List.filter f l = [].
Proof.
  induction 1 as [|x l Hx _ IH]; [reflexivity|]. simpl. rewrite Hx. exact IH.
Qed.

Lemma forallb_is_log_Forall (P : event -> Prop) (logs : list event) :
  (forall e, is_log e = true -> P e) -> forallb is_log logs = true -> Forall P logs.
Proof.
  intros HP Hlogs. apply Forall_forall. intros e He. apply HP.
  rewrite forallb_forall in Hlogs. apply Hlogs, list_elem_of_In, He.
Qed.

(** A tick that has a picture is its loop, then the canvas and the timer
    when the loop returns. *)
Lemma update_frame_try_loop (env : tick_env) (img : Image) (s : state) :
  read env = Some img ->
  update_frame_try env s =
    match tick_loop env img s with
    | (s1, t1, Returns frame) => (s1, t1 ++ [CreateImage frame; After 10], Returns tt)
    | (s1, t1, Raises e) => (s1, t1, Raises e)
    end.
Proof.
  intros Hread. unfold update_frame_try, tick_loop. rewrite Hread. unfold bind, get, emit.
  destruct (adding_user_mode s);
    [destruct (enroll_loop _ _ _ s) as [[s1 t1] [frame1|e]]
    |destruct (recognize_loop _ _ _ _ s) as [[s1 t1] [frame1|e]]]; reflexivity.
Qed.

(** The loop of a tick neither schedules a tick nor lets a
    [RequestException] out. *)
Lemma tick_loop_quiet (env : tick_env) (img : Image) (s : state) :
  Forall (fun e => is_after e = false) (trace_of (tick_loop env img s)) /\
  match outcome_of (tick_loop env img s) with
  | Returns frame => pixels frame = img
  | Raises e => is_RequestException e = false
  end.
Proof.
  unfold tick_loop. destruct (adding_user_mode s).
  - destruct (enroll_loop_shape env (detectMultiScale img) {| pixels := img; overlays := [] |} s)
      as ((logs & rest & -> & Hlogs & Hrest) & Ho).
    split.
    + apply Forall_app. split.
      * apply (forallb_is_log_Forall _ logs); [|exact Hlogs]. intros [] He; try discriminate.
        reflexivity.
      * destruct Hrest as [->|[s' ->]]; [constructor|].
        destruct (complete_add_user_shape env s') as (tl & -> & Htl & _).
        constructor; [reflexivity|].
        eapply Forall_impl; [exact Htl|]. intros e (He & _). exact He.
    + destruct (outcome_of _) as [frame|e]; [exact (proj1 Ho)|exact Ho].
  - destruct (recognize_loop_shape env (detectMultiScale img) 0 {| pixels := img; overlays := [] |} s)
      as (Ht & _ & Ho).
    split.
    + eapply Forall_impl; [exact Ht|]. intros e [He|[b ->]]; [|reflexivity].
      destruct e; try discriminate. reflexivity.
    + destruct (outcome_of _) as [frame|e]; [exact (proj1 Ho)|exact Ho].
Qed.

(** X1.  A tick schedules the next tick exactly when its [try] block runs
    to its end, and then it is the last thing the tick does.  When the
    block raises, the tick ends with the error dialog and schedules
    nothing. *)
Theorem tick_schedules_iff_try_returns (env : tick_env) (s : state) :
  match outcome_of (update_frame_try env s) with
  | Returns _ =>
      List.filter is_after (trace_of (update_frame env s)) = [After 10] /\
      last (trace_of (update_frame env s)) = Some (After 10)
  | Raises e =>
      List.filter is_after (trace_of (update_frame env s)) = [] /\
      last (trace_of (update_frame env s)) =
        Some (ShowError "Error" ("Error updating frame: " +:+ str_of_exn e))
  end.
Proof.
  rewrite update_frame_unfold.
  destruct (read env) as [img|] eqn:Hread.
  - rewrite (update_frame_try_loop env img s Hread).
    destruct (tick_loop_quiet env img s) as [Hquiet _].
    destruct (tick_loop env img s) as [[s1 t1] [frame|e]];
      unfold trace_of, outcome_of in Hquiet |- *; simpl in Hquiet |- *;
      rewrite List.filter_app, (filter_none _ _ Hquiet); simpl.
    + split; [reflexivity|]. rewrite last_app. reflexivity.
    + split; [reflexivity|]. rewrite last_app. reflexivity.
  - unfold update_frame_try. rewrite Hread. simpl. split; reflexivity.
Qed.

(** What a tick adds to its loop: the canvas and the timer, or the log line
    and the error dialog. *)
Lemma update_frame_trace (env : tick_env) (img : Image) (s : state) :
  read env = Some img ->
  state_of (update_frame env s) = state_of (tick_loop env img s) /\
  trace_of (update_frame env s) =
    trace_of (tick_loop env img s) ++
    match outcome_of (tick_loop env img s) with
    | Returns frame => [CreateImage frame; After 10]
    | Raises e => [Log ERROR ("Error updating frame: " +:+ str_of_exn e);
                   ShowError "Error" ("Error updating frame: " +:+ str_of_exn e)]
    end.
Proof.
  intros Hread. rewrite update_frame_unfold, (update_frame_try_loop env img s Hread).
  destruct (tick_loop env img s) as [[s1 t1] [frame|e]]; split; reflexivity.
Qed.

(** X2.  In Idle mode a tick makes at most one request per detected face,
    and every request is a recognition request; it never shows the name
    prompt, and it leaves the mode and the sample buffer as they were. *)
Theorem idle_tick_only_recognizes (env : tick_env) (img : Image) (s : state) :
  adding_user_mode s = false ->
  read env = Some img ->
  (length (posts (trace_of (update_frame env s))) <= length (detectMultiScale img))%nat /\
  Forall (fun e => is_prompt e = false /\
                   (is_post e = true -> exists b, e = recognize_request b))
         (trace_of (update_frame env s)) /\
  adding_user_mode (state_of (update_frame env s)) = false /\
  encodings (state_of (update_frame env s)) = encodings s.
Proof.
  intros Hmode Hread.
  destruct (update_frame_idle env s Hmode) as (Hm & _ & Henc & _).
  split; [|split; [|split; [congruence|exact Henc]]].
  - rewrite (update_frame_posts env img s Hread), Hmode.
    apply recognize_loop_shape.
  - destruct (update_frame_trace env img s Hread) as [_ ->].
    unfold tick_loop. rewrite Hmode.
    destruct (recognize_loop_shape env (detectMultiScale img) 0
                {| pixels := img; overlays := [] |} s) as (Ht & _).
    apply Forall_app. split.
    + eapply Forall_impl; [exact Ht|]. intros e [He|[b ->]].
      * destruct e; try discriminate. split; [reflexivity|discriminate].
      * split; [reflexivity|]. intros _. exists b. reflexivity.
    + destruct (outcome_of _); repeat constructor; discriminate.
Qed.

(** X3.  In Enrolling mode a tick makes at most one request, and it is a
    request to the enrollment endpoint; it leaves the cache as it was; and
    the frame it puts on the canvas has the pixels read from the camera
    with boxes drawn on them, at most one per face, and no label. *)
Theorem enrolling_tick_only_enrolls (env : tick_env) (img : Image) (s : state) :
  adding_user_mode s = true ->
  read env = Some img ->
  (length (posts (trace_of (update_frame env s))) <= 1)%nat /\
  Forall (fun e => is_post e = true -> is_post_to add_user_url e = true)
         (trace_of (update_frame env s)) /\
  recognized_faces_cache (state_of (update_frame env s)) = recognized_faces_cache s /\
  (forall frame, In (CreateImage frame) (trace_of (update_frame env s)) ->
     pixels frame = img /\
     forallb is_rectangle (overlays frame) = true /\
     (length (overlays frame) <= length (detectMultiScale img))%nat).
Proof.
  intros Hmode Hread.
  destruct (update_frame_trace env img s Hread) as [Hst Htr].
  assert (Hloop : tick_loop env img s =
                  enroll_loop env {| pixels := img; overlays := [] |} (detectMultiScale img) s)
    by (unfold tick_loop; rewrite Hmode; reflexivity).
  rewrite Hloop in Hst, Htr.
  destruct (enroll_loop_shape env (detectMultiScale img) {| pixels := img; overlays := [] |} s)
    as ((logs & rest & Hsplit & Hlogs & Hrest) & Ho).
  assert (Hlogs' : Forall (fun e : event => is_post e = false /\
                             forall frame, e <> CreateImage frame) logs).
  { apply (forallb_is_log_Forall _ logs); [|exact Hlogs].
    intros [] He; try discriminate. split; [reflexivity|discriminate]. }
  assert (Hrest' : Forall (fun e : event =>
                             (is_post e = true -> is_post_to add_user_url e = true) /\
                             forall frame, e <> CreateImage frame) rest /\
                   (length (posts rest) <= 1)%nat).
  { destruct Hrest as [->|[s' ->]]; [split; [constructor|simpl; lia]|].
    destruct (complete_add_user_shape env s') as (tl & -> & Htl & Hone & _).
    split; [|exact Hone].
    constructor; [split; discriminate|].
    eapply Forall_impl; [exact Htl|]. intros e (_ & _ & Hne & He). split.
    - intros Hp. destruct (He Hp) as [name ->]. reflexivity.
    - exact Hne. }
  destruct Hrest' as [Hrest' Hone].
  split; [|split; [|split]].
  - rewrite (update_frame_posts env img s Hread), Hmode, Hsplit.
    unfold posts. rewrite List.filter_app, length_app.
    rewrite (filter_none is_post logs); [exact Hone|].
    eapply Forall_impl; [exact Hlogs'|]. intros e [He _]. exact He.
  - rewrite Htr, Hsplit. repeat (apply Forall_app; split).
    + eapply Forall_impl; [exact Hlogs'|]. intros e [He _] Hp. congruence.
    + eapply Forall_impl; [exact Hrest'|]. intros e [He _]. exact He.
    + destruct (outcome_of _); repeat constructor; discriminate.
  - rewrite Hst. apply enroll_loop_cache.
  - intros frame Hin. rewrite Htr, Hsplit, !in_app_iff in Hin.
    destruct Hin as [[Hin|Hin]|Hin].
    + rewrite Forall_forall in Hlogs'. apply list_elem_of_In, Hlogs' in Hin.
      destruct Hin as [_ Hne]. destruct (Hne frame eq_refl).
    + rewrite Forall_forall in Hrest'. apply list_elem_of_In, Hrest' in Hin.
      destruct Hin as [_ Hne]. destruct (Hne frame eq_refl).
    + destruct (outcome_of _) as [frame'|e].
      * destruct Hin as [Heq|[Heq|[]]]; [|discriminate]. injection Heq as <-.
        destruct Ho as (Hpix & boxes & Hov & Hall & Hlen).
        simpl in Hov. rewrite Hov. split; [exact Hpix|]. split; assumption.
      * destruct Hin as [Heq|[Heq|[]]]; discriminate.
Qed.

Lemma labelled_overlays (frame : Frame) (box : FaceBox) (name : string) :
  overlays (labelled frame box name) = overlays frame ++ face_overlays box name.
Proof. destruct box as [[[x y] w] h]. simpl. rewrite <- app_assoc. reflexivity. Qed.

(** The frame that comes out of the recognition loop carries, after what
    it carried before, the box and the label of each face in turn. *)
Lemma recognize_loop_overlays (env : tick_env) (faces : list FaceBox) :
  forall (i : nat) (frame : Frame) (s : state) (frame' : Frame),
    outcome_of (recognize_loop env i frame faces s) = Returns frame' ->
    exists names,
      length names = length faces /\
      overlays frame' = overlays frame ++ concat (zip_with face_overlays faces names).
Proof.
  induction faces as [|box rest IH]; intros i frame s frame' Hout.
  - injection Hout as <-. exists []. simpl. rewrite app_nil_r. split; reflexivity.
  - rewrite recognize_loop_cons in Hout.
    destruct (recognize_face_shape env i frame box s) as (_ & _ & Ho).
    destruct (recognize_face env i frame box s) as [[s1 t1] [frame1|e]];
      unfold outcome_of in Ho; simpl in Ho; [|discriminate].
    destruct Ho as [name ->].
    specialize (IH (S i) (labelled frame box name) s1 frame').
    destruct (recognize_loop env (S i) (labelled frame box name) rest s1) as [[s2 t2] o].
    unfold outcome_of in IH, Hout. simpl in IH, Hout.
    destruct (IH Hout) as (names & Hlen & Hov).
    exists (name :: names). split; [simpl; rewrite Hlen; reflexivity|].
    rewrite Hov, labelled_overlays. simpl. rewrite <- !app_assoc. reflexivity.
Qed.

(** X4.  In Idle mode, when the loop of a tick gets through all the faces,
    the frame put on the canvas has the pixels read from the camera and,
    for each detected face in the order of detection, one box on the face
    followed by one label above it, and nothing else; putting it on the
    canvas and scheduling the next tick end the tick. *)
Theorem idle_tick_labels_every_face (env : tick_env) (img : Image) (s : state)
    (frame : Frame) :
  adding_user_mode s = false ->
  read env = Some img ->
  outcome_of (tick_loop env img s) = Returns frame ->
  trace_of (update_frame env s) =
    trace_of (tick_loop env img s) ++ [CreateImage frame; After 10] /\
  pixels frame = img /\
  exists names,
    length names = length (detectMultiScale img) /\
    overlays frame = concat (zip_with face_overlays (detectMultiScale img) names).
Proof.
  intros Hmode Hread Hout.
  destruct (update_frame_trace env img s Hread) as [_ ->]. rewrite Hout.
  split; [reflexivity|].
  unfold tick_loop in Hout. rewrite Hmode in Hout.
  destruct (recognize_loop_shape env (detectMultiScale img) 0
              {| pixels := img; overlays := [] |} s) as (_ & _ & Ho).
  rewrite Hout in Ho. split; [exact (proj1 Ho)|].
  exact (recognize_loop_overlays env (detectMultiScale img) 0
           {| pixels := img; overlays := [] |} s frame Hout).
Qed.

(** *** The sample buffer, counted *)

(** The sample loop from a buffer short of [num_photos]: the buffer grows
    at its end by one crop per face until it is full or the faces run out,
    and the mode is cleared exactly when it got full. *)
Lemma enroll_loop_count (env : tick_env) (faces : list FaceBox) :
  forall (frame : Frame) (s : state),
    (length (encodings s) < num_photos s)%nat ->
    exists new,
      encodings (state_of (enroll_loop env frame faces s)) = encodings s ++ new /\
      length new = (length faces `min` (num_photos s - length (encodings s)))%nat /\
      adding_user_mode (state_of (enroll_loop env frame faces s)) =
        (if (num_photos s <=? length (encodings s) + length faces)%nat
         then false else adding_user_mode s).
Proof.
  induction faces as [|[[[x y] w] h] rest IH]; intros frame s Hshort.
  - exists []. simpl. rewrite app_nil_r, Nat.add_0_r.
    split; [reflexivity|]. split; [reflexivity|].
    destruct (Nat.leb_spec (num_photos s) (length (encodings s))); [lia|reflexivity].
  - rewrite enroll_loop_cons.
    set (frame1 := cv2_rectangle frame (x, y) (x + w, y + h) (255, 0, 0) 2).
    set (enc := imencode_jpg frame1 (x, y, w, h)).
    set (s1 := with_encodings (encodings s ++ [enc]) s).
    assert (Hlen1 : length (encodings s1) = S (length (encodings s)))
      by (subst s1; simpl; rewrite length_app; simpl; lia).
    change (num_photos s1) with (num_photos s).
    destruct (Nat.leb_spec (num_photos s) (length (encodings s1))) as [Hfull|Hfree].
    + exists [enc].
      match goal with |- context [state_of ?r] =>
        assert (Hstate : state_of r = with_mode false s1) end.
      { unfold bind. pose proof (complete_add_user_state env s1) as Hst.
        destruct (complete_add_user env s1) as [[s2 t2] [[]|e]];
          unfold state_of in Hst |- *; simpl in Hst |- *; exact Hst. }
      rewrite Hstate. cbn [with_mode with_encodings encodings adding_user_mode length].
      split; [reflexivity|]. split; [lia|].
      destruct (Nat.leb_spec (num_photos s) (length (encodings s) + S (length rest)));
        [reflexivity|lia].
    + destruct (IH frame1 s1 Hfree) as (new & Henc & Hnew & Hmode).
      destruct (enroll_loop env frame1 rest s1) as [[s2 t2] o2].
      unfold state_of in Henc, Hmode |- *. cbn [fst snd] in Henc, Hmode |- *.
      change (num_photos s1) with (num_photos s) in Hnew, Hmode.
      change (adding_user_mode s1) with (adding_user_mode s) in Hmode.
      exists (enc :: new).
      split; [rewrite Henc; subst s1; simpl; rewrite <- app_assoc; reflexivity|].
      split; [cbn [length]; lia|].
      cbn [length]. rewrite Hmode, Hlen1.
      replace (S (length (encodings s)) + length rest)%nat
        with (length (encodings s) + S (length rest))%nat by lia.
      reflexivity.
Qed.

(** X5.  In Enrolling mode, with the buffer short of 5 crops as it is in
    every run, a tick appends one crop per detected face at the end of the
    buffer until the buffer is full or the faces run out: it appends
    [min (faces) (5 - buffer)] crops, keeps the crops it had, and leaves
    Enrolling mode exactly when the buffer got full. *)
Theorem enrolling_tick_fills_buffer (env : tick_env) (img : Image) (s : state) :
  adding_user_mode s = true ->
  (length (encodings s) < num_photos s)%nat ->
  read env = Some img ->
  exists new,
    encodings (state_of (update_frame env s)) = encodings s ++ new /\
    length new = (length (detectMultiScale img)
                  `min` (num_photos s - length (encodings s)))%nat /\
    adding_user_mode (state_of (update_frame env s)) =
      negb (num_photos s <=? length (encodings s) + length (detectMultiScale img))%nat.
Proof.
  intros Hmode Hshort Hread.
  destruct (update_frame_trace env img s Hread) as [-> _].
  unfold tick_loop. rewrite Hmode.
  destruct (enroll_loop_count env (detectMultiScale img) {| pixels := img; overlays := [] |}
              s Hshort) as (new & Henc & Hnew & Hm).
  exists new. split; [exact Henc|]. split; [exact Hnew|].
  rewrite Hm, Hmode. destruct (_ <=? _)%nat; reflexivity.
Qed.

(** The sample loop keeps what the buffer held, on any buffer. *)
Lemma enroll_loop_prefix (env : tick_env) (faces : list FaceBox) :
  forall (frame : Frame) (s : state),
    exists new, encodings (state_of (enroll_loop env frame faces s)) = encodings s ++ new.
Proof.
  induction faces as [|[[[x y] w] h] rest IH]; intros frame s.
  - exists []. simpl. rewrite app_nil_r. reflexivity.
  - rewrite enroll_loop_cons.
    set (frame1 := cv2_rectangle frame (x, y) (x + w, y + h) (255, 0, 0) 2).
    set (enc := imencode_jpg frame1 (x, y, w, h)).
    set (s1 := with_encodings (encodings s ++ [enc]) s).
    destruct (num_photos s1 <=? length (encodings s1))%nat.
    + exists [enc]. unfold bind.
      pose proof (complete_add_user_state env s1) as Hst.
      destruct (complete_add_user env s1) as [[s2 t2] [[]|e]];
        unfold state_of in Hst |- *; simpl in Hst |- *; subst s2; reflexivity.
    + destruct (IH frame1 s1) as (new & Henc).
      destruct (enroll_loop env frame1 rest s1) as [[s2 t2] o2].
      unfold state_of in Henc |- *. simpl in Henc |- *.
      exists (enc :: new). rewrite Henc. subst s1. simpl.
      rewrite <- app_assoc. reflexivity.
Qed.

(** X6.  The two modes crop differently.  For the first detected face, an
    Enrolling tick draws the box first and encodes the crop of the frame
    with the box on it; an Idle tick encodes the crop of the frame as
    read, and that is what it sends when the crop's hash misses. *)
Theorem first_crop_of_a_tick (env : tick_env) (img : Image) (s : state)
    (x y w h : Z) (rest : list FaceBox) :
  read env = Some img ->
  detectMultiScale img = (x, y, w, h) :: rest ->
  let frame := {| pixels := img; overlays := [] |} in
  (adding_user_mode s = true ->
     exists later,
       encodings (state_of (update_frame env s)) =
         encodings s ++
         imencode_jpg (cv2_rectangle frame (x, y) (x + w, y + h) (255, 0, 0) 2) (x, y, w, h)
         :: later) /\
  (adding_user_mode s = false ->
   recognized_faces_cache s !! hash_face_encoding (imencode_jpg frame (x, y, w, h)) = None ->
     exists later,
       trace_of (update_frame env s) =
         recognize_request (imencode_jpg frame (x, y, w, h)) :: later).
Proof.
  intros Hread Hfaces frame.
  destruct (update_frame_trace env img s Hread) as [Hst Htr].
  unfold tick_loop in Hst, Htr. rewrite Hfaces in Hst, Htr. fold frame in Hst, Htr.
  split.
  - intros Hmode. rewrite Hmode in Hst. rewrite Hst, enroll_loop_cons.
    set (frame1 := cv2_rectangle frame (x, y) (x + w, y + h) (255, 0, 0) 2).
    set (enc := imencode_jpg frame1 (x, y, w, h)).
    set (s1 := with_encodings (encodings s ++ [enc]) s).
    destruct (num_photos s1 <=? length (encodings s1))%nat.
    + exists []. unfold bind.
      pose proof (complete_add_user_state env s1) as Hc.
      destruct (complete_add_user env s1) as [[s2 t2] [[]|e]];
        unfold state_of in Hc |- *; simpl in Hc |- *; subst s2; reflexivity.
    + destruct (enroll_loop_prefix env rest frame1 s1) as (new & Henc).
      destruct (enroll_loop env frame1 rest s1) as [[s2 t2] o2].
      unfold state_of in Henc |- *. simpl in Henc |- *.
      exists new. rewrite Henc. subst s1. simpl. rewrite <- app_assoc. reflexivity.
  - intros Hmode Hmiss. rewrite Hmode in Htr. rewrite Htr, recognize_loop_cons.
    destruct (recognize_face_miss env 0 frame (x, y, w, h) s Hmiss)
      as (s' & logs & o & -> & _).
    destruct o as [frame1|e].
    + destruct (recognize_loop env 1 frame1 rest s') as [[s2 t2] o2].
      unfold trace_of. simpl. eexists. reflexivity.
    + unfold trace_of. simpl. eexists. reflexivity.
Qed.

(** *** Answers that are not labels *)

(** X7.  When the server's answer names something that [cv2.putText] does
    not take as a text (a number, a boolean, a list, an object: anything
    but a string or [null]), the value is stored in the cache all the same
    and drawing the label raises.  From then on every lookup of that crop
    is a hit that raises again, without any request. *)
Theorem non_string_name_poisons_cache (env : tick_env) (i : nat) (frame : Frame)
    (box : FaceBox) (s : state) (r : Response) (d : list (string * pyval)) :
  recognized_faces_cache s !! hash_face_encoding (imencode_jpg frame box) = None ->
  recognize_reply env i = PostReturns r ->
  raise_for_status r = inr tt ->
  json r = inr (PyDict d) ->
  text_of_pyval (dict_get d "name" (PyStr "Unknown")) = None ->
  let poisoned := cached (hash_face_encoding (imencode_jpg frame box))
                         (dict_get d "name" (PyStr "Unknown")) s in
  (exists msg,
     recognize_face env i frame box s =
       (poisoned, [recognize_request (imencode_jpg frame box)],
        Raises (OtherException msg))) /\
  (forall env' j,
     exists msg,
       recognize_face env' j frame box poisoned = (poisoned, [], Raises (OtherException msg))).
Proof.
  intros Hmiss Hreply Hstatus Hjson Htext poisoned.
  set (v := dict_get d "name" (PyStr "Unknown")) in *.
  split.
  - unfold recognize_face, bind, get. rewrite Hmiss.
    unfold try_except, requests_post, bind, emit. rewrite Hreply. simpl.
    rewrite Hstatus, Hjson. simpl. fold v.
    assert (Hne : py_eq_str v "Unknown" = false) by (destruct v; try reflexivity; discriminate).
    rewrite Hne. simpl.
    fold (cached (hash_face_encoding (imencode_jpg frame box)) v s). fold poisoned.
    destruct (draw_rectangle_cases frame box v poisoned) as [(nm & Hnm & _)|(_ & msg & ->)];
      [congruence|].
    exists msg. reflexivity.
  - intros env' j.
    assert (Hhit : recognized_faces_cache poisoned
                     !! hash_face_encoding (imencode_jpg frame box) = Some v)
      by (simpl; apply lookup_insert_eq).
    rewrite (recognize_face_hit env' j frame box poisoned v Hhit).
    destruct (draw_rectangle_cases frame box v poisoned) as [(nm & Hnm & _)|(_ & msg & ->)];
      [congruence|].
    exists msg. reflexivity.
Qed.

(** X8.  While every recognition request fails (the server is unreachable
    or answers with an error status), an Idle tick changes nothing: the
    cache, the mode and the buffer are what they were. *)
Theorem outage_tick_changes_nothing (env : tick_env) (s : state) :
  adding_user_mode s = false ->
  (forall i, request_fails (recognize_reply env i)) ->
  state_of (update_frame env s) = s.
Proof.
  intros Hmode Hfail. rewrite update_frame_state.
  destruct (read env) as [img|] eqn:Hread.
  2:{ unfold update_frame_try. rewrite Hread. reflexivity. }
  rewrite (update_frame_try_state env img s Hread), Hmode.
  generalize (detectMultiScale img) 0%nat {| pixels := img; overlays := [] |}.
  intros faces. induction faces as [|box rest IH]; intros i frame; [reflexivity|].
  rewrite recognize_loop_cons.
  assert (Hface : state_of (recognize_face env i frame box s) = s).
  { destruct (recognized_faces_cache s !! hash_face_encoding (imencode_jpg frame box))
      as [v|] eqn:Hlook.
    - rewrite (recognize_face_hit env i frame box s v Hlook).
      apply draw_rectangle_pure.
    - destruct (recognize_face_fails env i frame box s Hlook (Hfail i)) as [msg ->].
      reflexivity. }
  destruct (recognize_face env i frame box s) as [[s1 t1] [frame1|e]];
    unfold state_of in Hface; simpl in Hface; subst s1; [|reflexivity].
  specialize (IH (S i) frame1).
  destruct (recognize_loop env (S i) frame1 rest s) as [[s2 t2] o]. exact IH.
Qed.

(** *** Enrollment requests *)

(** X9.  The "Success" dialog is shown exactly when a name was typed and the
    enrollment server answered with a status that [raise_for_status]
    accepts and a body that decodes as JSON. *)
Theorem success_dialog_iff (env : tick_env) (s : state) :
  existsb is_success_dialog (trace_of (complete_add_user env s)) = true <->
  truthy (askstring_reply env) = true /\
  exists r body,
    add_user_reply env = PostReturns r /\ raise_for_status r = inr tt /\ json r = inr body.
Proof.
  unfold complete_add_user, bind, set_adding_user_mode, emit. simpl.
  destruct (truthy (askstring_reply env)).
  2:{ simpl. split; [discriminate|]. intros [? _]. discriminate. }
  unfold try_except, bind, get, requests_post, emit. simpl.
  destruct (add_user_reply env) as [[msg|msg]|r]; simpl.
  1,2: (split; [discriminate|]; intros [_ (r & body & ? & _)]; discriminate).
  destruct (raise_for_status_cases r) as [Hs|[msg Hs]]; rewrite Hs; simpl.
  2:{ split; [discriminate|]. intros [_ (r' & body & Hr & Hs' & _)].
      injection Hr as <-. congruence. }
  destruct (json r) as [[msg|msg]|body] eqn:Hj; simpl.
  1,2: (split; [discriminate|]; intros [_ (r' & body & Hr & _ & Hj')];
        injection Hr as <-; congruence).
  split; [|reflexivity]. intros _. split; [reflexivity|]. exists r, body. repeat split.
  - exact Hs.
  - exact Hj.
Qed.

Lemma string_length_app (s t : string) :
  String.length (s +:+ t) = (String.length s + String.length t)%nat.
Proof. induction s as [|a s IH]; simpl; [reflexivity|]. rewrite IH. reflexivity. Qed.

Lemma string_app_inj_r (t s1 s2 : string) : s1 +:+ t = s2 +:+ t -> s1 = s2.
Proof.
  revert s2. induction s1 as [|a s1 IH]; intros [|b s2] H.
  - reflexivity.
  - apply (f_equal String.length) in H. rewrite !string_length_app in H. simpl in H. lia.
  - apply (f_equal String.length) in H. rewrite !string_length_app in H. simpl in H. lia.
  - change (String a (s1 +:+ t) = String b (s2 +:+ t)) in H.
    injection H as -> H. f_equal. apply IH, H.
Qed.

Lemma image_name_inj (i j : nat) :
  "image_" +:+ pretty i +:+ ".jpg" = "image_" +:+ pretty j +:+ ".jpg" -> i = j.
Proof.
  intros H. apply (inj (String.app "image_")) in H.
  apply string_app_inj_r in H. exact (inj pretty _ _ H).
Qed.

Lemma filenames_from (k : nat) (encs : list bytes) :
  filenames (imap (fun i enc => ("file", FileTuple ("image_" +:+ pretty (k + i)%nat +:+ ".jpg")
                                                    enc "image/jpeg")) encs)
  = (fun i : nat => "image_" +:+ pretty i +:+ ".jpg") <$> seq k (length encs).
Proof.
  revert k. induction encs as [|enc encs IH]; intros k; [reflexivity|].
  cbn [imap length seq fmap list_fmap]. unfold filenames. cbn [omap list_omap snd].
  rewrite Nat.add_0_r. f_equal.
  rewrite <- (IH (S k)). unfold filenames. f_equal.
  apply imap_ext. intros i x _. unfold compose.
  replace (k + S i)%nat with (S k + i)%nat by lia. reflexivity.
Qed.

(** X10.  The files of the enrollment request are the crops of the buffer
    in order, the [i]-th under the name [image_i.jpg], and no two files
    have the same name. *)
Theorem add_user_files_names (encs : list bytes) :
  (forall i, add_user_files encs !! i =
             (fun enc => ("file", FileTuple ("image_" +:+ pretty i +:+ ".jpg") enc "image/jpeg"))
               <$> encs !! i) /\
  length (add_user_files encs) = length encs /\
  NoDup (filenames (add_user_files encs)).
Proof.
  split; [|split].
  - intros i. unfold add_user_files. apply list_lookup_imap.
  - unfold add_user_files. apply length_imap.
  - change (add_user_files encs)
      with (imap (fun i enc => ("file", FileTuple ("image_" +:+ pretty (0 + i)%nat +:+ ".jpg")
                                                  enc "image/jpeg")) encs).
    rewrite filenames_from. apply NoDup_fmap_2_strong; [|apply NoDup_seq].
    intros i j _ _. apply image_name_inj.
Qed.

(** *** Startup and shutdown *)

#[local] Abbreviation CameraApp_init :=
  (CameraApp_init detectMultiScale imencode_jpg sha256_hexdigest).
#[local] Abbreviation sys_event := (sys_event Image).
#[local] Abbreviation quit := (@quit Image).
#[local] Abbreviation quits := (@quits Image).
#[local] Abbreviation startup_env := (startup_env Image).

Lemma app_events_app (t1 t2 : list sys_event) :
  app_events (t1 ++ t2) = app_events t1 ++ app_events t2.
Proof. unfold app_events. apply omap_app. Qed.

Lemma app_events_App (t : list event) : app_events (map App t) = t.
Proof.
  induction t as [|e t IH]; [reflexivity|].
  simpl. unfold app_events in *. simpl. rewrite IH. reflexivity.
Qed.

Lemma filter_map_App (f : sys_event -> bool) (t : list event) :
  (forall e, f (App e) = false) -> List.filter f (map App t) = [].
Proof.
  intros Hf. induction t as [|e t IH]; [reflexivity|]. simpl. rewrite Hf. exact IH.
Qed.

(** [__init__] when the first tick is reached: the handler of line 50 is
    not, because a tick returns. *)
Lemma CameraApp_init_ok (env : startup_env) :
  camera_opens env = true ->
  cascade_empty env = false ->
  CameraApp_init env =
    ({| capture_opened := true;
        attributes := Some (state_of (update_frame (first_tick env) init)) |},
     [SetTitle "Face Recognition App"; VideoCapture 0; CreateCanvas 640 480; CreateFrame;
      CreateButton "Add User"; CreateButton "Quit";
      App (Log INFO ("Loading Haar Cascade from: " +:+ face_cascade_path env));
      CascadeClassifier (face_cascade_path env)]
     ++ map App (trace_of (update_frame (first_tick env) init))).
Proof.
  intros Hcam Hcas. unfold CameraApp_init, load_cascade. rewrite Hcam, Hcas. simpl.
  pose proof (update_frame_returns (first_tick env) init) as Hret.
  destruct (update_frame (first_tick env) init) as [[s t] o].
  unfold outcome_of in Hret. simpl in Hret. subst o. reflexivity.
Qed.

(** [__init__] when the camera or the cascade fails: the handle is closed
    and the camera released once if it had been opened. *)
Lemma failed_startup_core (env : startup_env) :
  camera_opens env = false \/ cascade_empty env = true ->
  capture_opened (CameraApp_init env).1 = false /\
  List.filter is_release (CameraApp_init env).2
    = (if camera_opens env then [Release] else []).
Proof.
  intros Hfail. unfold CameraApp_init, load_cascade, init_except, quit.
  destruct (camera_opens env); simpl.
  - destruct Hfail as [Hc|Hc]; [discriminate|]. rewrite Hc. simpl. split; reflexivity.
  - split; reflexivity.
Qed.

(** X11.  When the camera cannot be opened or the cascade file cannot be
    loaded, [__init__] runs no tick: besides log lines, the only event of
    the kind a tick makes is the one error dialog.  The camera is released
    once if it had been opened and not at all otherwise, the handle is
    closed afterwards, and [root.quit] is the last call. *)
Theorem failed_startup_runs_no_tick (env : startup_env) :
  camera_opens env = false \/ cascade_empty env = true ->
  capture_opened (CameraApp_init env).1 = false /\
  Forall (fun e => is_log e = true \/ is_error_dialog e = true)
         (app_events (CameraApp_init env).2) /\
  length (List.filter is_error_dialog (app_events (CameraApp_init env).2)) = 1%nat /\
  List.filter is_release (CameraApp_init env).2
    = (if camera_opens env then [Release] else []) /\
  last (CameraApp_init env).2 = Some RootQuit.
Proof.
  intros Hfail. unfold CameraApp_init, load_cascade, init_except, quit.
  destruct (camera_opens env); simpl.
  - destruct Hfail as [Hc|Hc]; [discriminate|]. rewrite Hc. simpl.
    split; [reflexivity|]. split; [repeat (constructor; [first [left; reflexivity|right; reflexivity]|]); constructor|].
    split; [reflexivity|]. split; reflexivity.
  - split; [reflexivity|]. split; [repeat (constructor; [first [left; reflexivity|right; reflexivity]|]); constructor|].
    split; [reflexivity|]. split; reflexivity.
Qed.

(** X12.  When the camera opens and the cascade loads, [__init__] runs the
    first tick at once, in Idle mode on an empty cache, and whatever that
    tick meets (no frame, faces, a server that fails or answers anything)
    the application is left running: the camera stays open, nothing is
    released, [root.quit] is not called, and the mode is Idle with an
    empty sample buffer of capacity 5. *)
Theorem startup_leaves_application_idle (env : startup_env) :
  camera_opens env = true ->
  cascade_empty env = false ->
  capture_opened (CameraApp_init env).1 = true /\
  List.filter is_release (CameraApp_init env).2 = [] /\
  List.filter is_root_quit (CameraApp_init env).2 = [] /\
  app_events (CameraApp_init env).2 =
    Log INFO ("Loading Haar Cascade from: " +:+ face_cascade_path env)
    :: trace_of (update_frame (first_tick env) init) /\
  exists s,
    attributes (CameraApp_init env).1 = Some s /\
    adding_user_mode s = false /\ encodings s = [] /\ num_photos s = 5%nat.
Proof.
  intros Hcam Hcas. rewrite (CameraApp_init_ok env Hcam Hcas). simpl.
  split; [reflexivity|].
  split; [apply filter_map_App; reflexivity|].
  split; [apply filter_map_App; reflexivity|].
  split; [unfold app_events; simpl; f_equal; apply app_events_App|].
  eexists. split; [reflexivity|].
  destruct (update_frame_idle (first_tick env) init eq_refl) as (Hm & Hn & He & _).
  rewrite Hm, Hn, He. repeat split.
Qed.

Lemma quits_spec (n : nat) (p : process) :
  capture_opened (quits n p).1 = (if n is O then capture_opened p else false) /\
  List.filter is_release (quits n p).2
    = (if n is O then [] else if capture_opened p then [Release] else []) /\
  length (List.filter is_root_quit (quits n p).2) = n.
Proof.
  revert p. induction n as [|n IH]; intros p; [repeat split|].
  cbn [quits]. unfold quit.
  destruct (capture_opened p) eqn:Hp.
  - destruct (IH {| capture_opened := false; attributes := attributes p |}) as (Ho & Hr & Hq).
    destruct (quits n {| capture_opened := false; attributes := attributes p |}) as [p2 t2].
    cbn [fst snd] in Ho, Hr, Hq |- *. cbn [capture_opened] in Ho, Hr.
    simpl. rewrite Hq.
    split; [destruct n; exact Ho|]. split; [|reflexivity].
    destruct n; rewrite Hr; reflexivity.
  - destruct (IH p) as (Ho & Hr & Hq).
    destruct (quits n p) as [p2 t2].
    cbn [fst snd] in Ho, Hr, Hq |- *. rewrite Hp in Ho, Hr.
    simpl. rewrite Hq.
    split; [destruct n; exact Ho|]. split; [|reflexivity].
    destruct n; rewrite Hr; reflexivity.
Qed.

(** X13.  Over [__init__] and any number of presses of "Quit", the camera
    is released at most once; once "Quit" was pressed the handle is closed,
    and the camera was released exactly once if it had been opened at
    startup and never if it had not. *)
Theorem camera_released_once (env : startup_env) (n : nat) :
  let start := CameraApp_init env in
  let stop := quits n start.1 in
  (length (List.filter is_release (start.2 ++ stop.2)) <= 1)%nat /\
  (n <> O ->
   capture_opened stop.1 = false /\
   List.filter is_release (start.2 ++ stop.2)
     = (if camera_opens env then [Release] else [])).
Proof.
  intros start stop.
  assert (Hstart : (capture_opened start.1 = false /\
                    List.filter is_release start.2
                      = (if camera_opens env then [Release] else [])) \/
                   (capture_opened start.1 = true /\ camera_opens env = true /\
                    List.filter is_release start.2 = [])).
  { subst start. destruct (camera_opens env) eqn:Hcam.
    - destruct (cascade_empty env) eqn:Hcas.
      + left. destruct (failed_startup_core env) as (Ho & Hr); [right; exact Hcas|].
        rewrite Hcam in Hr. split; assumption.
      + right. rewrite (CameraApp_init_ok env Hcam Hcas). simpl.
        repeat split. apply filter_map_App. reflexivity.
    - left. destruct (failed_startup_core env) as (Ho & Hr); [left; exact Hcam|].
      rewrite Hcam in Hr. split; assumption. }
  destruct (quits_spec n start.1) as (Ho & Hr & _). fold stop in Ho, Hr.
  rewrite List.filter_app, Hr.
  destruct Hstart as [(Hc & Hs)|(Hc & Hcam & Hs)]; rewrite Hs, Hc in *.
  - split.
    + destruct n, (camera_opens env); simpl; lia.
    + intros Hn. destruct n; [contradiction|]. split; [exact Ho|].
      rewrite app_nil_r. reflexivity.
  - rewrite Hcam. split.
    + destruct n; simpl; lia.
    + intros Hn. destruct n; [contradiction|]. split; [exact Ho|reflexivity].
Qed.

(** *** A face seen twice *)

(** A tick in Idle mode on a picture with one face, in full. *)
Lemma one_face_tick (env : tick_env) (img : Image) (box : FaceBox) (s : state) :
  adding_user_mode s = false ->
  read env = Some img ->
  detectMultiScale img = [box] ->
  update_frame env s =
    match recognize_face env 0 {| pixels := img; overlays := [] |} box s with
    | (s1, t1, Returns frame) => (s1, t1 ++ [CreateImage frame; After 10], Returns tt)
    | (s1, t1, Raises e) =>
        (s1, t1 ++ [Log ERROR ("Error updating frame: " +:+ str_of_exn e);
                    ShowError "Error" ("Error updating frame: " +:+ str_of_exn e)],
         Returns tt)
    end.
Proof.
  intros Hmode Hread Hfaces.
  rewrite update_frame_unfold, (update_frame_try_loop env img s Hread).
  unfold tick_loop. rewrite Hmode, Hfaces, recognize_loop_cons.
  destruct (recognize_face env 0 _ box s) as [[s1 t1] [frame|e]]; [|reflexivity].
  simpl. rewrite app_nil_r. reflexivity.
Qed.

(** X14.  A face that the server has named is not asked about again: when
    a tick in Idle mode sends the crop of the one face of a picture and the
    answer names a string, the next tick on the same picture makes no
    request, whatever the server would do, and shows the same label. *)
Theorem answered_face_is_not_asked_again (env1 env2 : tick_env) (img : Image)
    (box : FaceBox) (s : state) (r : Response) (d : list (string * pyval)) (name : string) :
  let frame := {| pixels := img; overlays := [] |} in
  adding_user_mode s = false ->
  read env1 = Some img ->
  read env2 = Some img ->
  detectMultiScale img = [box] ->
  recognized_faces_cache s !! hash_face_encoding (imencode_jpg frame box) = None ->
  recognize_reply env1 0 = PostReturns r ->
  raise_for_status r = inr tt ->
  json r = inr (PyDict d) ->
  dict_get d "name" (PyStr "Unknown") = PyStr name ->
  state_of (update_frame env1 s) =
    cached (hash_face_encoding (imencode_jpg frame box)) (PyStr name) s /\
  update_frame env2 (state_of (update_frame env1 s)) =
    (state_of (update_frame env1 s),
     [CreateImage (labelled frame box name); After 10], Returns tt).
Proof.
  intros frame Hmode Hread1 Hread2 Hfaces Hmiss Hreply Hstatus Hjson Hname.
  assert (Hfirst : state_of (update_frame env1 s) =
                   cached (hash_face_encoding (imencode_jpg frame box)) (PyStr name) s).
  { rewrite (one_face_tick env1 img box s Hmode Hread1 Hfaces). fold frame.
    rewrite (recognize_face_answer_str env1 0 frame box s r d name
               Hmiss Hreply Hstatus Hjson Hname).
    reflexivity. }
  split; [exact Hfirst|]. rewrite Hfirst.
  set (s1 := cached _ _ s).
  rewrite (one_face_tick env2 img box s1 Hmode Hread2 Hfaces). fold frame.
  assert (Hhit : recognized_faces_cache s1 !! hash_face_encoding (imencode_jpg frame box)
                 = Some (PyStr name)) by (subst s1; simpl; apply lookup_insert_eq).
  rewrite (recognize_face_hit env2 0 frame box s1 (PyStr name) Hhit), draw_rectangle_str.
  reflexivity.
Qed.

End Properties.

(** ** The claims on the test bench *)

Import Bench.

(** *** C1 *)



(** *** C2 *)

(** C2, at a failing input.  In recognition mode with one face in the
    picture, the server answers 200 with a JSON list: [.get] raises, the
    handler of line 125 logs and shows the error, and the trace of the tick
    has no [After]: no next tick is scheduled.  The failed camera read of
    lines 71-73, in contrast, does schedule it. *)
Theorem exception_tick_is_not_rescheduled :
  update (sees one_face (answer 200 (PyList []))) init =
    (init,
     [recognize_request (encode (fresh one_face) face);
      Log ERROR "Error updating frame: AttributeError: object has no attribute 'get'";
      ShowError "Error" "Error updating frame: AttributeError: object has no attribute 'get'"],
     Returns tt) /\
  List.filter is_after (trace_of (update (sees one_face (answer 200 (PyList []))) init)) = [] /\
  List.filter is_after
    (trace_of (update {| read := None; recognize_reply := fun _ => unreachable;
                         askstring_reply := None; add_user_reply := unreachable |} init))
    = [After 10].
Proof. vm_compute. repeat split. Qed.

(** *** C3 *)

(** C3 fails as stated: after "Add User", a tick with five faces fills the
    buffer and completes the session.  Whether the prompt is cancelled or
    the enrollment server is unreachable, the buffer holds the five crops
    of the session afterwards, and still does after further ticks. *)
Lemma failed_enrollment_buffer_is_retained :
  let cancelled := tick five_faces unreachable None unreachable in
  let failing := tick five_faces unreachable (Some "Bob") unreachable in
  length (encodings (state_of (runs [AddUser; Tick cancelled] init))) = 5%nat /\
  encodings (state_of (runs [AddUser; Tick cancelled] init)) <> [] /\
  length (encodings (state_of (runs [AddUser; Tick failing] init))) = 5%nat /\
  encodings (state_of (runs [AddUser; Tick failing] init)) <> [] /\
  length (encodings (state_of (runs [AddUser; Tick cancelled; Tick (sees empty_room alice)] init)))
    = 5%nat.
Proof. vm_compute. repeat split; discriminate. Qed.

Lemma failed_enrollment_keeps_buffer_witness :
  let env := tick five_faces unreachable None unreachable in
  let s := with_encodings [[Byte.x01]; [Byte.x02]] (with_mode true init) in
  let later := [sees one_face alice; sees empty_room unreachable] in
  (truthy (askstring_reply env) = false \/ request_fails (add_user_reply env)) /\
  encodings (state_of (runs (map Tick later) (state_of (complete_add_user env s))))
    = [[Byte.x01]; [Byte.x02]] /\
  adding_user_mode (state_of (runs (map Tick later) (state_of (complete_add_user env s))))
    = false /\
  encodings (state_of (runs (map Tick later ++ [AddUser])
                            (state_of (complete_add_user env s)))) = [].
Proof.
  intros env s later.
  assert (H : truthy (askstring_reply env) = false \/ request_fails (add_user_reply env))
    by (left; reflexivity).
  split; [exact H|].
  exact (proj2 (failed_enrollment_keeps_buffer detect encode digest env s H) later).
Defined.

(** *** C5 *)

Lemma no_name_no_request_witness :
  let env := tick five_faces unreachable (Some "") alice in
  let s := with_encodings [[Byte.x01]; [Byte.x02]] (with_mode true init) in
  (askstring_reply env = None \/ askstring_reply env = Some "") /\
  posts (trace_of (complete_add_user env s)) = [] /\
  adding_user_mode (state_of (complete_add_user env s)) = false.
Proof.
  intros env s.
  assert (H : askstring_reply env = None \/ askstring_reply env = Some "")
    by (right; reflexivity).
  split; [exact H|]. exact (no_name_no_request env s H).
Defined.

(** *** C6 *)

Lemma no_face_tick_witness :
  read (sees empty_room alice) = Some empty_room /\
  detect empty_room = [] /\
  update (sees empty_room alice) (with_mode true init) =
    (with_mode true init, [CreateImage (fresh empty_room); After 10], Returns tt).
Proof.
  split; [reflexivity|]. split; [reflexivity|].
  exact (no_face_tick detect encode digest (sees empty_room alice) empty_room
           (with_mode true init) eq_refl eq_refl).
Defined.

(** *** C7 *)

(** C7 fails as stated for a status that is neither 2xx nor an error class:
    [raise_for_status] lets 300 pass, and the name of the answer is drawn
    and cached. *)
Lemma status_300_is_not_unknown :
  ~ (200 <= 300 < 300) /\
  recognized_faces_cache init !! digest (encode (fresh one_face) face) = None /\
  recognize (sees one_face (answer 300 (PyDict [("name", PyStr "Alice")]))) 0
            (fresh one_face) face init =
    (cached (digest (encode (fresh one_face) face)) (PyStr "Alice") init,
     [recognize_request (encode (fresh one_face) face)],
     Returns (labelled (fresh one_face) face "Alice")) /\
  labelled (fresh one_face) face "Alice" <> labelled (fresh one_face) face "Unknown".
Proof.
  split; [lia|]. split; [reflexivity|]. split; [reflexivity|].
  vm_compute. discriminate.
Qed.

Lemma failed_recognition_is_unknown_witness :
  recognized_faces_cache init !! digest (encode (fresh one_face) face) = None /\
  request_fails (recognize_reply (sees one_face (answer 503 PyNone)) 0) /\
  exists msg,
    recognize (sees one_face (answer 503 PyNone)) 0 (fresh one_face) face init =
      (init,
       [recognize_request (encode (fresh one_face) face);
        Log ERROR ("Error recognizing face: " +:+ msg)],
       Returns (labelled (fresh one_face) face "Unknown")).
Proof.
  assert (Hmiss : recognized_faces_cache init !! digest (encode (fresh one_face) face) = None)
    by reflexivity.
  assert (Hfail : request_fails (recognize_reply (sees one_face (answer 503 PyNone)) 0))
    by (apply http_error; simpl; lia).
  split; [exact Hmiss|]. split; [exact Hfail|].
  exact (proj1 (failed_recognition_is_unknown detect encode digest
                  (sees one_face (answer 503 PyNone)) 0 (fresh one_face) face init
                  Hmiss Hfail)).
Defined.

(** *** C8 *)

Lemma cache_hit_determinism_witness :
  let s := state_of (update (sees one_face alice) init) in
  let later := [Tick (sees one_face unreachable); AddUser; Tick (sees empty_room unreachable)] in
  encode (fresh one_face) face = encode (fresh one_face) face /\
  recognized_faces_cache s !! digest (encode (fresh one_face) face) = Some (PyStr "Alice") /\
  recognize (sees one_face unreachable) 0 (fresh one_face) face (state_of (runs later s)) =
    (state_of (runs later s), [], Returns (labelled (fresh one_face) face "Alice")).
Proof.
  intros s later.
  assert (Hc : recognized_faces_cache s !! digest (encode (fresh one_face) face)
               = Some (PyStr "Alice")) by reflexivity.
  split; [reflexivity|]. split; [exact Hc|].
  exact (proj1 (cache_hit_determinism detect encode digest s later
                  (sees one_face unreachable) 0 (fresh one_face) (fresh one_face) face face
                  (PyStr "Alice") eq_refl Hc)).
Defined.

(** *** C9 *)

Lemma enrollment_sends_five_witness :
  let env := tick five_faces unreachable (Some "Bob") (answer 200 (PyDict [])) in
  let s := state_of (runs [AddUser] init) in
  adding_user_mode s = true /\
  (5 <= length (encodings s) + length (detect five_faces))%nat /\
  exists crops,
    length crops = 5%nat /\
    crops = encodings s ++
            take (5 - length (encodings s)) (captured_crops encode (fresh five_faces)
                                                            (detect five_faces)) /\
    encodings (state_of (update env s)) = crops /\
    posts (trace_of (update env s)) =
      [Post add_user_url
            (imap (fun i crop =>
                     ("file", FileTuple ("image_" +:+ pretty i +:+ ".jpg") crop "image/jpeg"))
                  crops)
            [("name", "Bob")]] /\
    adding_user_mode (state_of (update env s)) = false.
Proof.
  intros env s.
  assert (Hmode : adding_user_mode s = true) by reflexivity.
  assert (Hfaces : (5 <= length (encodings s) + length (detect five_faces))%nat)
    by (vm_compute; lia).
  split; [exact Hmode|]. split; [exact Hfaces|].
  refine (enrollment_sends_five detect encode digest [AddUser] env five_faces "Bob"
            Hmode eq_refl Hfaces eq_refl _).
  discriminate.
Defined.

(** *** C10 *)


(** ** The further properties on the test bench *)

Lemma idle_tick_only_recognizes_witness :
  adding_user_mode init = false /\
  read (sees two_faces unreachable) = Some two_faces /\
  (length (posts (trace_of (update (sees two_faces unreachable) init))) <= 2)%nat /\
  encodings (state_of (update (sees two_faces unreachable) init)) = [].
Proof.
  split; [reflexivity|]. split; [reflexivity|].
  pose proof (idle_tick_only_recognizes detect encode digest (sees two_faces unreachable)
                two_faces init eq_refl eq_refl) as (Hn & _ & _ & Henc).
  split; [exact Hn|exact Henc].
Defined.

Lemma enrolling_tick_only_enrolls_witness :
  let env := tick five_faces unreachable (Some "Bob") alice in
  let s := with_mode true init in
  adding_user_mode s = true /\
  read env = Some five_faces /\
  (length (posts (trace_of (update env s))) <= 1)%nat /\
  recognized_faces_cache (state_of (update env s)) = recognized_faces_cache s.
Proof.
  intros env s. split; [reflexivity|]. split; [reflexivity|].
  pose proof (enrolling_tick_only_enrolls detect encode digest env five_faces s
                eq_refl eq_refl) as (Hn & _ & Hc & _).
  split; [exact Hn|exact Hc].
Defined.

Lemma idle_tick_labels_every_face_witness :
  let env := sees two_faces alice in
  let frame :=
    labelled (labelled (fresh two_faces) (0, 0, 100, 100) "Alice") (110, 0, 100, 100) "Alice" in
  adding_user_mode init = false /\
  read env = Some two_faces /\
  outcome_of (loop env two_faces init) = Returns frame /\
  pixels frame = two_faces /\
  exists names,
    length names = length (detect two_faces) /\
    overlays frame = concat (zip_with face_overlays (detect two_faces) names).
Proof.
  intros env frame. split; [reflexivity|]. split; [reflexivity|].
  assert (Hout : outcome_of (loop env two_faces init) = Returns frame) by reflexivity.
  split; [exact Hout|].
  exact (proj2 (idle_tick_labels_every_face detect encode digest env two_faces init frame
                  eq_refl eq_refl Hout)).
Defined.

Lemma enrolling_tick_fills_buffer_witness :
  let env := tick two_faces unreachable None unreachable in
  let s := with_encodings [[Byte.x01]; [Byte.x02]; [Byte.x03]; [Byte.x04]] (with_mode true init) in
  adding_user_mode s = true /\
  (length (encodings s) < num_photos s)%nat /\
  read env = Some two_faces /\
  exists new,
    encodings (state_of (update env s)) = encodings s ++ new /\
    length new = 1%nat /\
    adding_user_mode (state_of (update env s)) = false.
Proof.
  intros env s.
  assert (Hshort : (length (encodings s) < num_photos s)%nat) by (vm_compute; lia).
  split; [reflexivity|]. split; [exact Hshort|]. split; [reflexivity|].
  exact (enrolling_tick_fills_buffer detect encode digest env two_faces s
           eq_refl Hshort eq_refl).
Defined.

Lemma first_crop_of_a_tick_witness :
  let env := sees two_faces alice in
  read env = Some two_faces /\
  detect two_faces = [(0, 0, 100, 100); (110, 0, 100, 100)] /\
  (exists later,
     encodings (state_of (update env (with_mode true init))) =
       [] ++ encode (cv2_rectangle (fresh two_faces) (0, 0) (0 + 100, 0 + 100) (255, 0, 0) 2)
                    (0, 0, 100, 100) :: later) /\
  (exists later,
     trace_of (update env init) =
       recognize_request (encode (fresh two_faces) (0, 0, 100, 100)) :: later).
Proof.
  intros env. split; [reflexivity|]. split; [reflexivity|].
  split.
  - exact (proj1 (first_crop_of_a_tick detect encode digest env two_faces (with_mode true init)
                    0 0 100 100 [(110, 0, 100, 100)] eq_refl eq_refl) eq_refl).
  - exact (proj2 (first_crop_of_a_tick detect encode digest env two_faces init
                    0 0 100 100 [(110, 0, 100, 100)] eq_refl eq_refl) eq_refl eq_refl).
Defined.

Lemma non_string_name_poisons_cache_witness :
  let env := sees one_face (answer 200 (PyDict [("name", PyInt 7)])) in
  let poisoned := cached (digest (encode (fresh one_face) face)) (PyInt 7) init in
  recognized_faces_cache init !! digest (encode (fresh one_face) face) = None /\
  text_of_pyval (dict_get [("name", PyInt 7)] "name" (PyStr "Unknown")) = None /\
  (exists msg,
     recognize env 0 (fresh one_face) face init =
       (poisoned, [recognize_request (encode (fresh one_face) face)],
        Raises (OtherException msg))) /\
  (exists msg,
     recognize (sees one_face alice) 0 (fresh one_face) face poisoned =
       (poisoned, [], Raises (OtherException msg))).
Proof.
  intros env poisoned.
  assert (Hmiss : recognized_faces_cache init !! digest (encode (fresh one_face) face) = None)
    by reflexivity.
  split; [exact Hmiss|]. split; [reflexivity|].
  pose proof (non_string_name_poisons_cache encode digest env 0 (fresh one_face) face init
                _ [("name", PyInt 7)] Hmiss eq_refl eq_refl eq_refl eq_refl) as [H1 H2].
  split; [exact H1|exact (H2 (sees one_face alice) 0%nat)].
Defined.

Lemma outage_tick_changes_nothing_witness :
  adding_user_mode init = false /\
  (forall i, request_fails (recognize_reply (sees two_faces unreachable) i)) /\
  state_of (update (sees two_faces unreachable) init) = init.
Proof.
  assert (Hfail : forall i, request_fails (recognize_reply (sees two_faces unreachable) i))
    by (intros i; apply transport_fails).
  split; [reflexivity|]. split; [exact Hfail|].
  exact (outage_tick_changes_nothing detect encode digest (sees two_faces unreachable) init
           eq_refl Hfail).
Defined.

Lemma failed_startup_runs_no_tick_witness :
  let env := boot true true (sees one_face alice) in
  (camera_opens env = false \/ cascade_empty env = true) /\
  capture_opened (start env).1 = false /\
  List.filter is_release (start env).2 = [Release] /\
  last (start env).2 = Some RootQuit.
Proof.
  intros env.
  assert (H : camera_opens env = false \/ cascade_empty env = true) by (right; reflexivity).
  split; [exact H|].
  pose proof (failed_startup_runs_no_tick detect encode digest env H)
    as (Ho & _ & _ & Hr & Hl).
  split; [exact Ho|]. split; [exact Hr|exact Hl].
Defined.

Lemma startup_leaves_application_idle_witness :
  let env := boot true false (sees one_face (answer 200 (PyList []))) in
  camera_opens env = true /\
  cascade_empty env = false /\
  capture_opened (start env).1 = true /\
  List.filter is_root_quit (start env).2 = [].
Proof.
  intros env. split; [reflexivity|]. split; [reflexivity|].
  pose proof (startup_leaves_application_idle detect encode digest env eq_refl eq_refl)
    as (Ho & _ & Hq & _).
  split; [exact Ho|exact Hq].
Defined.

Lemma answered_face_is_not_asked_again_witness :
  let env1 := sees one_face alice in
  let env2 := sees one_face unreachable in
  adding_user_mode init = false /\
  detect one_face = [face] /\
  recognized_faces_cache init !! digest (encode (fresh one_face) face) = None /\
  update env2 (state_of (update env1 init)) =
    (state_of (update env1 init),
     [CreateImage (labelled (fresh one_face) face "Alice"); After 10], Returns tt).
Proof.
  intros env1 env2.
  assert (Hmiss : recognized_faces_cache init !! digest (encode (fresh one_face) face) = None)
    by reflexivity.
  split; [reflexivity|]. split; [reflexivity|]. split; [exact Hmiss|].
  exact (proj2 (answered_face_is_not_asked_again detect encode digest env1 env2 one_face face
                  init _ [("name", PyStr "Alice")] "Alice"
                  eq_refl eq_refl eq_refl eq_refl Hmiss eq_refl eq_refl eq_refl eq_refl)).
Defined.
